(** * statigz: serving pre-compressed embedded files over HTTP

    A shallow embedding of [server.go] of github.com/vearutop/statigz (and of
    the option [brotli.AddEncoding]) together with the properties of the
    index, of the negotiation in [ServeHTTP] and of the response writer
    [serve].

    Go strings are byte sequences: header values, paths and validators are
    [string]s, file payloads and response bodies are [list byte]s.  The
    response writer, the request and the file system are explicit values;
    the handler is a function from the response writer it receives to the
    response writer it leaves behind, together with the list of I/O events it
    performed. *)

From Stdlib Require Import ZArith Lia List Strings.String Strings.Ascii Strings.Byte Bool.
From stdpp Require Import gmap strings list fin_maps.

Import ListNotations.
Local Open Scope string_scope.
Local Open Scope Z_scope.

(** ** Pieces of the Go standard library used by the source *)

(** [error] values are identified with their message. *)
Definition error : Type := string.

(** A Go call returning [(value, err)]. *)
Inductive Result (A : Type) : Type :=
| Ok (a : A)
| Err (e : error).
Arguments Ok {A} a.
Arguments Err {A} e.

Definition bytes_of (s : string) : list byte := list_byte_of_string s.

(** *** package strings *)

(** [strings.ToLower] on the ASCII range (bytes above 0x7f are kept: the
    Unicode mappings of the library are outside the model). *)
Definition lower_ascii (c : ascii) : ascii :=
  let n := nat_of_ascii c in
  if ((65 <=? n) && (n <=? 90))%nat then ascii_of_nat (n + 32) else c.

Fixpoint strings_ToLower (s : string) : string :=
  match s with
  | EmptyString => EmptyString
  | String c s' => String (lower_ascii c) (strings_ToLower s')
  end.

Fixpoint strings_HasPrefix (s pre : string) : bool :=
  match pre, s with
  | EmptyString, _ => true
  | String _ _, EmptyString => false
  | String a pre', String b s' => Ascii.eqb a b && strings_HasPrefix s' pre'
  end.

(** [strings.Contains(s, substr)]: [substr] occurs somewhere in [s]. *)
Fixpoint strings_Contains (s substr : string) : bool :=
  strings_HasPrefix s substr ||
  match s with
  | EmptyString => false
  | String _ s' => strings_Contains s' substr
  end.

Fixpoint drop_string (n : nat) (s : string) : string :=
  match n, s with
  | O, _ => s
  | S n', String _ s' => drop_string n' s'
  | S _, EmptyString => EmptyString
  end.

Definition strings_TrimPrefix (s pre : string) : string :=
  if strings_HasPrefix s pre then drop_string (String.length pre) s else s.

(** *** package path *)

Fixpoint split_on (c : ascii) (s : string) : list string :=
  match s with
  | EmptyString => [EmptyString]
  | String a s' =>
      if Ascii.eqb a c then EmptyString :: split_on c s'
      else match split_on c s' with
           | x :: xs => String a x :: xs
           | [] => [String a EmptyString]
           end
  end.

Fixpoint join_with (sep : string) (l : list string) : string :=
  match l with
  | [] => EmptyString
  | [x] => x
  | x :: xs => x +:+ sep +:+ join_with sep xs
  end.

(** One element of the scan of [path.Clean]; [out] holds the elements written
    so far, last one first.  A [".."] element removes the last element when
    there is one to backtrack over, is kept on a relative path, and is
    dropped at the root. *)
Definition clean_elem (rooted : bool) (out : list string) (e : string) : list string :=
  if String.eqb e "" || String.eqb e "." then out
  else if String.eqb e ".." then
    match out with
    | top :: out' => if String.eqb top ".." then e :: out else out'
    | [] => if rooted then out else [e]
    end
  else e :: out.

Definition path_Clean (p : string) : string :=
  if String.eqb p "" then "."
  else
    let rooted := strings_HasPrefix p "/" in
    let out := rev (fold_left (clean_elem rooted) (split_on "/" p) []) in
    if rooted then "/" +:+ join_with "/" out
    else match out with
         | [] => "."
         | _ => join_with "/" out
         end.

(** [path.Join]: the non-empty elements separated by slashes, cleaned; the
    empty string when every element is empty. *)
Definition path_Join (elem : list string) : string :=
  match List.filter (fun e => negb (String.eqb e "")) elem with
  | [] => ""
  | l => path_Clean (join_with "/" l)
  end.

(** [filepath.Ext]: the suffix starting at the last dot of the last path
    element ('/' is the separator). *)
Fixpoint filepath_Ext (p : string) : string :=
  match p with
  | EmptyString => EmptyString
  | String c p' =>
      match filepath_Ext p' with
      | String _ _ as e => e
      | EmptyString =>
          if Ascii.eqb c "." && negb (strings_Contains p' "/") then p else EmptyString
      end
  end.

(** *** package strconv *)

Definition digits : string := "0123456789abcdefghijklmnopqrstuvwxyz".

Definition digit (d : Z) : ascii :=
  match String.get (Z.to_nat d) digits with
  | Some c => c
  | None => "0"%char
  end.

(** The loop of [formatBits]: the digits of [u], least significant first,
    are put in front of [acc]. *)
Fixpoint formatBits (fuel : nat) (u base : Z) (acc : string) : string :=
  match fuel with
  | O => acc
  | S fuel' =>
      if u <? base then String (digit u) acc
      else formatBits fuel' (u / base) base (String (digit (u mod base)) acc)
  end.

Definition strconv_FormatUint (i : Z) (base : Z) : string :=
  formatBits 65 i base EmptyString.

Definition strconv_Itoa (i : Z) : string :=
  if i <? 0 then "-" +:+ strconv_FormatUint (- i) 10 else strconv_FormatUint i 10.

(** *** package hash/fnv *)

Definition offset64 : Z := 14695981039346656037.
Definition prime64 : Z := 1099511628211.

(** [fnv.New64()], [Write] of the whole payload, then [Sum64]: FNV-1 on
    64-bit words, the product wrapping around. *)
Definition fnv_Sum64 (data : list byte) : Z :=
  fold_left (fun h c => Z.lxor ((h * prime64) mod 2 ^ 64) (Z.of_N (Byte.to_N c)))
            data offset64.

(** *** io.Reader, fs.ReadDirFS *)

(** What reading a stream to its end yields: the bytes delivered, the error
    that ends the stream when it is not EOF, and whether the value also
    implements [io.ReadSeeker]. *)
Record Reader : Type := {
  contents : list byte;
  read_err : option error;
  seekable : bool;
}.

(** A directory tree as [ReadDir] presents it: a node is a directory with its
    listing (or the error of listing it) or a non-directory entry; entries
    carry their base name. *)
#[warnings="-register-all"]
Inductive Tree : Type :=
| TFile
| TDir (listing : Result (list (string * Tree))).

(** [fs.ReadDirFS]: the tree that [ReadDir] walks and [Open] by path. *)
Record ReadDirFS : Type := {
  tree : Tree;
  Open : string -> Result Reader;
}.

(** *** package net/http *)

(** [http.Header] with canonical keys, as the source writes them. *)
Abbreviation Header := (gmap string (list string)).

Definition Header_Get (h : Header) (key : string) : string :=
  match h !! key with
  | Some (v :: _) => v
  | _ => ""
  end.

Definition Header_Set (key value : string) (h : Header) : Header :=
  <[key := [value]]> h.

Definition Header_Del (key : string) (h : Header) : Header :=
  delete key h.

Record Request : Type := {
  Method : string;
  URL_Path : string;
  ReqHeader : Header;
}.

(** The response as the handler builds it: the header map, the status once
    [WriteHeader] has been called (explicitly or by the first [Write]), and
    the bytes written. *)
Record ResponseWriter : Type := {
  header : Header;
  status : option Z;
  written : list byte;
}.

Definition set_header (key value : string) (rw : ResponseWriter) : ResponseWriter :=
  {| header := Header_Set key value (header rw); status := status rw; written := written rw |}.

Definition del_header (key : string) (rw : ResponseWriter) : ResponseWriter :=
  {| header := Header_Del key (header rw); status := status rw; written := written rw |}.

(** Only the first [WriteHeader] counts. *)
Definition WriteHeader (code : Z) (rw : ResponseWriter) : ResponseWriter :=
  match status rw with
  | Some _ => rw
  | None => {| header := header rw; status := Some code; written := written rw |}
  end.

Definition Write (data : list byte) (rw : ResponseWriter) : ResponseWriter :=
  let rw := WriteHeader 200 rw in
  {| header := header rw; status := status rw; written := (written rw ++ data)%list |}.

(** The status the client sees: 200 when the handler never wrote one. *)
Definition StatusCode (rw : ResponseWriter) : Z :=
  match status rw with
  | Some code => code
  | None => 200
  end.

Definition nl : string := String (ascii_of_nat 10) EmptyString.

Definition http_Error (rw : ResponseWriter) (msg : string) (code : Z) : ResponseWriter :=
  let rw := set_header "Content-Type" "text/plain; charset=utf-8" rw in
  let rw := set_header "X-Content-Type-Options" "nosniff" rw in
  let rw := WriteHeader code rw in
  Write (bytes_of (msg +:+ nl)) rw.

Definition http_NotFound (rw : ResponseWriter) (req : Request) : ResponseWriter :=
  http_Error rw "404 page not found" 404.

Definition MethodGet : string := "GET".
Definition MethodHead : string := "HEAD".
Definition StatusNotModified : Z := 304.
Definition StatusMethodNotAllowed : Z := 405.
Definition StatusInternalServerError : Z := 500.

(** The library routines the source calls and the model leaves open: the
    MIME table, [http.ServeContent] (called with the zero modification time),
    and the stream constructors and compressors of compress/gzip and
    andybalholm/brotli. *)
Class Platform : Type := {
  mime_TypeByExtension : string -> string;
  http_ServeContent : ResponseWriter -> Request -> string -> Reader -> ResponseWriter;
  gzip_NewReader : Reader -> Result Reader;
  brotli_NewReader : Reader -> Reader;
  brotli_Compress : Reader -> Result (list byte);
}.

(** ** server.go *)

(** [Encoding] describes content encoding.  [Encoder] is the field that
    brotli/encoding.go fills in; nothing in server.go reads it. *)
Record Encoding : Type := {
  FileExt : string;
  ContentEncoding : string;
  Decoder : option (Reader -> Result Reader);
  Encoder : option (Reader -> Result (list byte));
}.

Record fileInfo : Type := {
  hash : string;
  size : Z;
}.

Record Server : Type := {
  OnError : ResponseWriter -> Request -> error -> ResponseWriter;
  Encodings : list Encoding;
  info : gmap string fileInfo;
  fs : ReadDirFS;
}.

(** The I/O a request causes, in the order it happens. *)
Inductive Event : Type :=
| EvOpen (name : string)
| EvDecompress
| EvServeContent
| EvCopy
| EvOnError (e : error).

(** The state a handler works on: the response writer and the events so far. *)
Record Conn : Type := {
  rw : ResponseWriter;
  events : list Event;
}.

Definition emit (e : Event) (c : Conn) : Conn :=
  {| rw := rw c; events := events c ++ [e] |}.

Definition on_rw (f : ResponseWriter -> ResponseWriter) (c : Conn) : Conn :=
  {| rw := f (rw c); events := events c |}.

Definition set_info (i : gmap string fileInfo) (s : Server) : Server :=
  {| OnError := OnError s; Encodings := Encodings s; info := i; fs := fs s |}.

(** [hashDir(p)], [d] being what the file system holds at [p]; the index is
    threaded through the walk, and the first error ends it. *)
Fixpoint hashDir (open : string -> Result Reader) (p : string) (d : Tree)
    (inf : gmap string fileInfo) {struct d} : Result (gmap string fileInfo) :=
  match d with
  | TFile => Err "not a directory"
  | TDir (Err err) => Err err
  | TDir (Ok files) =>
      (fix range (files : list (string * Tree)) (inf : gmap string fileInfo)
         : Result (gmap string fileInfo) :=
         match files with
         | [] => Ok inf
         | (name, f) :: rest =>
             let fn := path_Join [p; name] in
             match f with
             | TDir _ =>
                 match hashDir open fn f inf with
                 | Err err => Err err
                 | Ok inf' => range rest inf'
                 end
             | TFile =>
                 match open fn with
                 | Err err => Err err
                 | Ok r =>
                     match read_err r with
                     | Some err => Err err
                     | None =>
                         let n := Z.of_nat (length (contents r)) in
                         range rest
                           (<[path_Clean fn :=
                                {| hash := strconv_FormatUint (fnv_Sum64 (contents r)) 36;
                                   size := n |}]> inf)
                     end
                 end
             end
         end) files inf
  end.

Section Statigz.
Context `{Platform}.

(** [Server.serve]: the response for the representation [fn+suf], with
    validator [hash], known content length [cl] (0 when unknown) and the
    optional [decompress] transform. *)
Definition serve (s : Server) (c : Conn) (req : Request) (fn suf enc hash : string)
    (cl : Z) (decompress : option (Reader -> Result Reader)) : Conn :=
  if String.eqb (Header_Get (ReqHeader req) "If-None-Match") hash then
    on_rw (WriteHeader StatusNotModified) c
  else
    let ctype := mime_TypeByExtension (filepath_Ext fn) in
    let ctype := if String.eqb ctype "" then "application/octet-stream" else ctype in
    let c := on_rw (set_header "Content-Type" ctype) c in
    let c := on_rw (set_header "Etag" hash) c in
    let c := if negb (String.eqb enc "") then on_rw (set_header "Content-Encoding" enc) c
             else c in
    let c := emit (EvOpen (fn +:+ suf)) c in
    match Open (fs s) (fn +:+ suf) with
    | Err err => on_rw (fun w => OnError s w req err) (emit (EvOnError err) c)
    | Ok r =>
        let c := if 0 <? cl then on_rw (set_header "Content-Length" (strconv_Itoa cl)) c
                 else c in
        if String.eqb (Method req) MethodHead then c
        else
          let decoded :=
            match decompress with
            | Some d => (emit EvDecompress c, d r)
            | None => (c, Ok r)
            end in
          match decoded with
          | (c, Err err) =>
              let c := on_rw (del_header "Etag") c in
              on_rw (fun w => OnError s w req err) (emit (EvOnError err) c)
          | (c, Ok r) =>
              if seekable r then
                on_rw (fun w => http_ServeContent w req fn r) (emit EvServeContent c)
              else
                let c := on_rw (fun w => match contents r with
                                         | [] => w
                                         | data => Write data w
                                         end) (emit EvCopy c) in
                match read_err r with
                | Some err => on_rw (fun w => OnError s w req err) (emit (EvOnError err) c)
                | None => c
                end
          end
    end.

(** The first loop of [ServeHTTP] over [s.Encodings]: [Some] is the [return]
    after [s.serve], [None] is falling out of the loop. *)
Fixpoint serveCompressed (s : Server) (c : Conn) (req : Request) (fn ae : string)
    (encs : list Encoding) : option Conn :=
  match encs with
  | [] => None
  | enc :: rest =>
      if negb (strings_Contains ae (ContentEncoding enc)) then
        serveCompressed s c req fn ae rest
      else
        match info s !! (fn +:+ FileExt enc) with
        | None => serveCompressed s c req fn ae rest
        | Some inf =>
            Some (serve s c req fn (FileExt enc) (ContentEncoding enc) (hash inf) (size inf) None)
        end
  end.

(** The second loop of [ServeHTTP]. *)
Fixpoint serveDecompressed (s : Server) (c : Conn) (req : Request) (fn : string)
    (encs : list Encoding) : option Conn :=
  match encs with
  | [] => None
  | enc :: rest =>
      match info s !! (fn +:+ FileExt enc), Decoder enc with
      | Some inf, Some dec =>
          Some (serve s c req fn (FileExt enc) "" (hash inf +:+ "U") 0 (Some dec))
      | _, _ => serveDecompressed s c req fn rest
      end
  end.

(** [Server.ServeHTTP] serves static files. *)
Definition ServeHTTP (s : Server) (c : Conn) (req : Request) : Conn :=
  if negb (String.eqb (Method req) MethodGet) && negb (String.eqb (Method req) MethodHead) then
    let c := on_rw (set_header "Allow" (MethodGet +:+ ", " +:+ MethodHead)) c in
    on_rw (fun w => http_Error w ("Method Not Allowed" +:+ nl +:+ nl +:+
                                  "method should be GET or HEAD")
                               StatusMethodNotAllowed) c
  else
    let fn := strings_TrimPrefix (URL_Path req) "/" in
    let ae := Header_Get (ReqHeader req) "Accept-Encoding" in
    let compressed :=
      if negb (String.eqb ae "") then
        serveCompressed s c req fn (strings_ToLower ae) (Encodings s)
      else None in
    match compressed with
    | Some c' => c'
    | None =>
        match info s !! fn with
        | Some uncompressedInfo =>
            serve s c req fn "" "" (hash uncompressedInfo) (size uncompressedInfo) None
        | None =>
            match serveDecompressed s c req fn (Encodings s) with
            | Some c' => c'
            | None => on_rw (fun w => http_NotFound w req) c
            end
        end
    end.

(** [OnError] is an option to customize error handling in Server. *)
Definition OnErrorOption (onErr : ResponseWriter -> Request -> error -> ResponseWriter)
    (server : Server) : Server :=
  {| OnError := onErr; Encodings := Encodings server; info := info server; fs := fs server |}.

(** [GzipEncoding] provides gzip Encoding. *)
Definition GzipEncoding : Encoding :=
  {| FileExt := ".gz";
     ContentEncoding := "gzip";
     Decoder := Some gzip_NewReader;
     Encoder := None |}.

(** [brotli.AddEncoding] is an option that prepends brotli to encodings of
    the server. *)
Definition brotli_AddEncoding (server : Server) : Server :=
  let enc := {| FileExt := ".br";
                ContentEncoding := "br";
                Decoder := Some (fun r => Ok (brotli_NewReader r));
                Encoder := Some brotli_Compress |} in
  {| OnError := OnError server; Encodings := enc :: Encodings server;
     info := info server; fs := fs server |}.

(** [FileServer] creates an instance of Server from file system; [Err] is
    the panic on a failed walk. *)
Definition FileServer (fsys : ReadDirFS) (options : list (Server -> Server)) : Result Server :=
  let s := {| fs := fsys;
              info := ∅;
              OnError := fun w r err =>
                http_Error w "Internal Server Error" StatusInternalServerError;
              Encodings := [GzipEncoding] |} in
  let s := fold_left (fun s o => o s) options s in
  match hashDir (Open (fs s)) "." (tree (fs s)) (info s) with
  | Err err => Err err
  | Ok inf => Ok (set_info inf s)
  end.

(** Modelled from the spec: [Server.Found] is called by the tests and the
    example but its body is not in server.go.  Section 4.4: the predicate
    "does this request path resolve to a stored asset", re-running only the
    existence check of the handler -- the three lookups of the negotiation,
    with no file opened and no header written. *)
Definition Found (s : Server) (req : Request) : bool :=
  let fn := strings_TrimPrefix (URL_Path req) "/" in
  let ae := Header_Get (ReqHeader req) "Accept-Encoding" in
  (negb (String.eqb ae "") &&
   existsb (fun enc => strings_Contains (strings_ToLower ae) (ContentEncoding enc) &&
                       bool_decide (is_Some (info s !! (fn +:+ FileExt enc))))
           (Encodings s))
  || bool_decide (is_Some (info s !! fn))
  || existsb (fun enc => bool_decide (is_Some (info s !! (fn +:+ FileExt enc))) &&
                         bool_decide (is_Some (Decoder enc)))
             (Encodings s).

End Statigz.

(** ** The negotiation as the specification words it *)

(** A resolved representation: what [ServeHTTP] hands to [serve] besides the
    path. *)
Record Resolution : Type := {
  r_suf : string;
  r_enc : string;
  r_hash : string;
  r_cl : Z;
  r_decompress : option (Reader -> Result Reader);
}.

Definition request_path (req : Request) : string :=
  strings_TrimPrefix (URL_Path req) "/".

Definition accept_encoding (req : Request) : string :=
  Header_Get (ReqHeader req) "Accept-Encoding".

Definition stored (s : Server) (key : string) : bool :=
  bool_decide (is_Some (info s !! key)).

(** The wire name, as registered, occurs in the lower-cased header. *)
Definition names_wire (ae : string) (enc : Encoding) : bool :=
  strings_Contains (strings_ToLower ae) (ContentEncoding enc).


(** Step 1, compressed and accepted: the first codec in registration order
    that the header names and whose sidecar is in the index. *)
Definition compressed_accepted (names : string -> Encoding -> bool) (s : Server)
    (fn ae : string) : option Resolution :=
  if String.eqb ae "" then None
  else
    enc ← List.find (fun enc => names ae enc && stored s (fn +:+ FileExt enc)) (Encodings s);
    inf ← info s !! (fn +:+ FileExt enc);
    Some {| r_suf := FileExt enc; r_enc := ContentEncoding enc; r_hash := hash inf;
            r_cl := size inf; r_decompress := None |}.

(** Step 2, native match: the bare path is in the index. *)
Definition native_match (s : Server) (fn : string) : option Resolution :=
  inf ← info s !! fn;
  Some {| r_suf := ""; r_enc := ""; r_hash := hash inf; r_cl := size inf;
          r_decompress := None |}.

(** Step 3, decompress fallback: the first codec in registration order whose
    sidecar is in the index and that has a decoder. *)
Definition decompress_fallback (s : Server) (fn : string) : option Resolution :=
  enc ← List.find (fun enc => stored s (fn +:+ FileExt enc) &&
                              bool_decide (is_Some (Decoder enc))) (Encodings s);
  inf ← info s !! (fn +:+ FileExt enc);
  dec ← Decoder enc;
  Some {| r_suf := FileExt enc; r_enc := ""; r_hash := hash inf +:+ "U"; r_cl := 0;
          r_decompress := Some dec |}.

(** The three steps, strictly in this order. *)
Definition negotiate (names : string -> Encoding -> bool) (s : Server) (fn ae : string)
    : option Resolution :=
  match compressed_accepted names s fn ae with
  | Some r => Some r
  | None =>
      match native_match s fn with
      | Some r => Some r
      | None => decompress_fallback s fn
      end
  end.

(** The methods [ServeHTTP] answers. *)
Definition allowed_method (req : Request) : Prop :=
  Method req = MethodGet ∨ Method req = MethodHead.

(** The resolution of a request, with the test for the wire name that the
    handler makes. *)
Definition resolution (s : Server) (req : Request) : option Resolution :=
  negotiate names_wire s (request_path req) (accept_encoding req).

Section Response.
Context `{Platform}.

(** What the handler does with the outcome of the negotiation: the response
    writer gets the resolved representation, or 404 when there is none. *)
Definition respond (s : Server) (c : Conn) (req : Request) (res : option Resolution) : Conn :=
  match res with
  | Some r =>
      serve s c req (request_path req) (r_suf r) (r_enc r) (r_hash r) (r_cl r) (r_decompress r)
  | None => on_rw (fun w => http_NotFound w req) c
  end.

(** The content type [serve] declares for the asset path [fn]. *)
Definition content_type (fn : string) : string :=
  let ctype := mime_TypeByExtension (filepath_Ext fn) in
  if String.eqb ctype "" then "application/octet-stream" else ctype.

(** The response writer [serve] has built when it opens the file: the three
    headers on top of what the writer already carried. *)
Definition with_headers (fn enc hash : string) (w : ResponseWriter) : ResponseWriter :=
  let w := set_header "Content-Type" (content_type fn) w in
  let w := set_header "Etag" hash w in
  if negb (String.eqb enc "") then set_header "Content-Encoding" enc w else w.

(** The response writer when the body transfer starts. *)
Definition with_length (cl : Z) (w : ResponseWriter) : ResponseWriter :=
  if 0 <? cl then set_header "Content-Length" (strconv_Itoa cl) w else w.

(** [io.Copy(rw, r)] followed by the error branch of [serve]: the bytes the
    stream delivers are written (nothing is written for an empty stream), and
    the error that ends the stream goes to the hook.  Writes to the response
    do not fail in this embedding. *)
Definition copy_out (s : Server) (req : Request) (r : Reader) (c : Conn) : Conn :=
  let c := on_rw (fun w => match contents r with
                           | [] => w
                           | data => Write data w
                           end) (emit EvCopy c) in
  match read_err r with
  | Some err => on_rw (fun w => OnError s w req err) (emit (EvOnError err) c)
  | None => c
  end.

(** The state of [serve] once it has asked for the file: headers set, the
    open recorded. *)
Definition at_open (fn suf enc hash : string) (c : Conn) : Conn :=
  {| rw := with_headers fn enc hash (rw c);
     events := events c ++ [EvOpen (fn +:+ suf)] |}.

(** The state of [serve] when the body transfer starts. *)
Definition at_body (fn suf enc hash : string) (cl : Z) (c : Conn) : Conn :=
  {| rw := with_length cl (with_headers fn enc hash (rw c));
     events := events c ++ [EvOpen (fn +:+ suf)] |}.

(** The call of the error hook. *)
Definition hook (s : Server) (req : Request) (err : error) (c : Conn) : Conn :=
  {| rw := OnError s (rw c) req err; events := events c ++ [EvOnError err] |}.

(** The transfer of an opened stream: [http.ServeContent] for a seekable
    one, [io.Copy] otherwise. *)
Definition transfer (s : Server) (req : Request) (fn : string) (r : Reader) (c : Conn) : Conn :=
  if seekable r then on_rw (fun w => http_ServeContent w req fn r) (emit EvServeContent c)
  else copy_out s req r c.

End Response.

(** The same request sent with another method. *)
Definition with_method (m : string) (req : Request) : Request :=
  {| Method := m; URL_Path := URL_Path req; ReqHeader := ReqHeader req |}.

(** The entries a walk from [p] meets, directories included, each with the
    path [fn] built for it and whether it is a directory. *)
Fixpoint entries_under (p : string) (d : Tree) {struct d} : list (string * bool) :=
  match d with
  | TFile => []
  | TDir (Err _) => []
  | TDir (Ok files) =>
      (fix range (files : list (string * Tree)) : list (string * bool) :=
         match files with
         | [] => []
         | (name, f) :: rest =>
             let fn := path_Join [p; name] in
             match f with
             | TDir _ => (fn, true) :: entries_under fn f ++ range rest
             | TFile => (fn, false) :: range rest
             end
         end) files
  end.

Definition files_of (entries : list (string * bool)) : list string :=
  fst <$> filter (λ e, snd e = false) entries.

Definition dirs_of (entries : list (string * bool)) : list string :=
  fst <$> filter (λ e, snd e = true) entries.

(** The non-directory entries, in the order the walk meets them. *)
Definition files_under (p : string) (d : Tree) : list string :=
  files_of (entries_under p d).

Definition dirs_under (p : string) (d : Tree) : list string :=
  dirs_of (entries_under p d).

(** No listing and no file under [d] fails: every directory lists and every
    file opens and reads to its end. *)
Fixpoint healthy (open : string -> Result Reader) (p : string) (d : Tree) {struct d} : bool :=
  match d with
  | TFile => false
  | TDir (Err _) => false
  | TDir (Ok files) =>
      (fix range (files : list (string * Tree)) : bool :=
         match files with
         | [] => true
         | (name, f) :: rest =>
             let fn := path_Join [p; name] in
             match f with
             | TDir _ => healthy open fn f && range rest
             | TFile =>
                 match open fn with
                 | Ok r => bool_decide (read_err r = None) && range rest
                 | Err _ => false
                 end
             end
         end) files
  end.

(** The record the index keeps for a payload. *)
Definition record_of (data : list byte) : fileInfo :=
  {| hash := strconv_FormatUint (fnv_Sum64 data) 36; size := Z.of_nat (length data) |}.

(** The loops over one listing, on their own. *)
Fixpoint hashRange (open : string -> Result Reader) (p : string)
    (files : list (string * Tree)) (inf : gmap string fileInfo)
    : Result (gmap string fileInfo) :=
  match files with
  | [] => Ok inf
  | (name, f) :: rest =>
      let fn := path_Join [p; name] in
      match f with
      | TDir _ =>
          match hashDir open fn f inf with
          | Err err => Err err
          | Ok inf' => hashRange open p rest inf'
          end
      | TFile =>
          match open fn with
          | Err err => Err err
          | Ok r =>
              match read_err r with
              | Some err => Err err
              | None =>
                  hashRange open p rest
                    (<[path_Clean fn :=
                         {| hash := strconv_FormatUint (fnv_Sum64 (contents r)) 36;
                            size := Z.of_nat (length (contents r)) |}]> inf)
              end
          end
      end
  end.

Fixpoint entriesRange (p : string) (files : list (string * Tree)) : list (string * bool) :=
  match files with
  | [] => []
  | (name, f) :: rest =>
      let fn := path_Join [p; name] in
      match f with
      | TDir _ => (fn, true) :: entries_under fn f ++ entriesRange p rest
      | TFile => (fn, false) :: entriesRange p rest
      end
  end.

Fixpoint healthyRange (open : string -> Result Reader) (p : string)
    (files : list (string * Tree)) : bool :=
  match files with
  | [] => true
  | (name, f) :: rest =>
      let fn := path_Join [p; name] in
      match f with
      | TDir _ => healthy open fn f && healthyRange open p rest
      | TFile =>
          match open fn with
          | Ok r => bool_decide (read_err r = None) && healthyRange open p rest
          | Err _ => false
          end
      end
  end.

(** What indexing one file adds. *)
Definition index_file (open : string -> Result Reader) (m : gmap string fileInfo)
    (fn : string) : gmap string fileInfo :=
  match open fn with
  | Ok r => <[path_Clean fn := record_of (contents r)]> m
  | Err _ => m
  end.

(** An option that only assigns exported fields leaves the index and the
    file system alone. *)
Definition keeps_private (o : Server -> Server) : Prop :=
  ∀ s, info (o s) = info s ∧ fs (o s) = fs s.

(** ** A small file tree and stand-ins for the library routines, to run the
    handler on *)
Module Example.

(** A stand-in for gzip: two magic bytes followed by the payload kept as it
    is; anything else is refused the way [gzip.NewReader] refuses it. *)
Definition gz_magic : list byte := [x1f; x8b].

Definition toy_gzip (data : list byte) : list byte := gz_magic ++ data.

Definition toy_gunzip (r : Reader) : Result Reader :=
  match contents r with
  | x1f :: x8b :: data => Ok {| contents := data; read_err := read_err r; seekable := false |}
  | _ => Err "gzip: invalid header"
  end.

Definition mime_table (ext : string) : string :=
  if String.eqb ext ".txt" then "text/plain; charset=utf-8"
  else if String.eqb ext ".json" then "application/json"
  else if String.eqb ext ".png" then "image/png"
  else "".

(** [http.ServeContent] for a request without Range and without
    preconditions: 200 and the whole content, the length declared when no
    Content-Encoding is set. *)
Definition plain_ServeContent (w : ResponseWriter) (req : Request) (name : string)
    (r : Reader) : ResponseWriter :=
  let w := if String.eqb (Header_Get (header w) "Content-Encoding") "" then
             set_header "Content-Length"
                        (strconv_Itoa (Z.of_nat (length (contents r)))) w
           else w in
  let w := set_header "Accept-Ranges" "bytes" w in
  let w := WriteHeader 200 w in
  if String.eqb (Method req) MethodHead then w else Write (contents r) w.

Definition platform : Platform :=
  {| mime_TypeByExtension := mime_table;
     http_ServeContent := plain_ServeContent;
     gzip_NewReader := toy_gunzip;
     brotli_NewReader := fun r =>
       {| contents := contents r; read_err := read_err r; seekable := false |};
     brotli_Compress := fun r => Ok (contents r) |}.

Definition plain_file (data : list byte) : Result Reader :=
  Ok {| contents := data; read_err := None; seekable := false |}.

(** a.txt with its sidecar, deeper/b.bin.gz without its original, an empty
    file, and bad.png.gz that is no gzip stream. *)
Definition files : Tree :=
  TDir (Ok [("a.txt", TFile);
            ("a.txt.gz", TFile);
            ("bad.png.gz", TFile);
            ("deeper", TDir (Ok [("b.bin.gz", TFile)]));
            ("empty.txt", TFile)]).

Definition open_file (name : string) : Result Reader :=
  if String.eqb name "a.txt" then plain_file (bytes_of "hello")
  else if String.eqb name "a.txt.gz" then plain_file (toy_gzip (bytes_of "hello"))
  else if String.eqb name "bad.png.gz" then plain_file (bytes_of "oops")
  else if String.eqb name "deeper/b.bin.gz" then plain_file (toy_gzip (bytes_of "bin!"))
  else if String.eqb name "empty.txt" then plain_file []
  else Err "file does not exist".

Definition fsys : ReadDirFS := {| tree := files; Open := open_file |}.

(** The same tree once a.txt.gz can no longer be opened. *)
Definition fsys_gone : ReadDirFS :=
  {| tree := files;
     Open := fun name => if String.eqb name "a.txt.gz" then Err "file does not exist"
                         else open_file name |}.

(** A tree whose sub-directory cannot be listed. *)
Definition fsys_unlistable : ReadDirFS :=
  {| tree := TDir (Ok [("a.txt", TFile); ("deeper", TDir (Err "permission denied"))]);
     Open := open_file |}.

Definition server_or (fsys : ReadDirFS) (built : Result Server) : Server :=
  match built with
  | Ok s => s
  | Err _ => {| OnError := fun w _ _ => w; Encodings := []; info := ∅; fs := fsys |}
  end.

(** [FileServer(fsys, brotli.AddEncoding)] *)
Definition server : Server :=
  server_or fsys (FileServer (H := platform) fsys [brotli_AddEncoding (H := platform)]).

(** The index of [server] over a file system that lost a.txt.gz after
    construction. *)
Definition server_gone : Server :=
  {| OnError := OnError server; Encodings := Encodings server; info := info server;
     fs := fsys_gone |}.



Definition fresh : Conn :=
  {| rw := {| header := ∅; status := None; written := [] |}; events := [] |}.

Definition get (p : string) (hdr : list (string * string)) : Request :=
  {| Method := MethodGet; URL_Path := p;
     ReqHeader := list_to_map ((fun kv => (fst kv, [snd kv])) <$> hdr) |}.


Definition handle (s : Server) (req : Request) : Conn :=
  ServeHTTP (H := platform) s fresh req.

End Example.

(** ** Requests derived from a request *)

(** The same request with one header set, as [req.Header.Set] leaves it. *)
Definition with_req_header (key value : string) (req : Request) : Request :=
  {| Method := Method req; URL_Path := URL_Path req;
     ReqHeader := Header_Set key value (ReqHeader req) |}.

(** The characters of a string, in order. *)
Definition chars (x : string) : list ascii := list_ascii_of_string x.

(** ** The library models on known values *)

Example fnv_Sum64_a : fnv_Sum64 (bytes_of "a") = 0xaf63bd4c8601b7be.
Proof. reflexivity. Qed.

Example FormatUint_base36 :
  strconv_FormatUint 35 36 = "z" ∧ strconv_FormatUint 36 36 = "10" ∧
  strconv_FormatUint (2 ^ 64 - 1) 36 = "3w5e11264sgsf".
Proof. repeat split; reflexivity. Qed.

Example Itoa_decimal : strconv_Itoa 24919 = "24919" ∧ strconv_Itoa (-7) = "-7".
Proof. split; reflexivity. Qed.

Example path_Join_walk :
  path_Join ["."; "testdata"] = "testdata" ∧
  path_Join ["testdata"; "deeper"] = "testdata/deeper" ∧
  path_Clean "a//b/./c/.." = "a/b" ∧ path_Clean "../../a/.." = "../.." ∧
  path_Clean "/../a" = "/a" ∧ path_Clean "" = ".".
Proof. repeat split; reflexivity. Qed.

Example filepath_Ext_last_dot :
  filepath_Ext "deeper/swagger.json" = ".json" ∧ filepath_Ext "a.b/c" = "" ∧
  filepath_Ext "x.tar.gz" = ".gz".
Proof. repeat split; reflexivity. Qed.

Example Contains_lowered_header :
  strings_Contains (strings_ToLower "GZip, BR") "br" = true ∧
  strings_Contains (strings_ToLower "identity") "gzip" = false ∧
  strings_Contains "" "" = true.
Proof. repeat split; reflexivity. Qed.

Example index_of_the_example_tree :
  map_to_list (info Example.server) =
    [("empty.txt", {| hash := "33niihzj4ux45"; size := 0 |});
     ("a.txt.gz", {| hash := "1xneddq8u2d2d"; size := 7 |});
     ("a.txt", {| hash := "1vhsp6t4dqdon"; size := 5 |});
     ("bad.png.gz", {| hash := "2sglllo4g63bo"; size := 4 |});
     ("deeper/b.bin.gz", {| hash := "3uj6y8ba1nkvf"; size := 6 |})].
Proof. vm_compute. reflexivity. Qed.

(** A method other than GET and HEAD: 405 with the Allow header. *)
Example method_not_allowed :
  let out := Example.handle Example.server (with_method "DELETE" (Example.get "/a.txt" [])) in
  StatusCode (rw out) = 405 ∧ header (rw out) !! "Allow" = Some ["GET, HEAD"] ∧
  events out = [].
Proof. vm_compute. repeat split; reflexivity. Qed.

(** ** The negotiation of [ServeHTTP] *)

Section Negotiation.
Context `{Platform}.

Lemma stored_lookup (s : Server) (key : string) :
  stored s key = match info s !! key with Some _ => true | None => false end.
Proof.
  unfold stored. destruct (info s !! key) as [inf|] eqn:E.
  - apply bool_decide_eq_true. eauto.
  - apply bool_decide_eq_false. intros [x Hx]. discriminate.
Qed.

(** The first loop returns for the first codec that the header names and
    whose sidecar is stored. *)
Lemma serveCompressed_find (s : Server) (c : Conn) (req : Request) (fn ae : string)
    (encs : list Encoding) :
  serveCompressed s c req fn ae encs =
    (enc ← List.find (fun enc => strings_Contains ae (ContentEncoding enc) &&
                                  stored s (fn +:+ FileExt enc)) encs;
     inf ← info s !! (fn +:+ FileExt enc);
     Some (serve s c req fn (FileExt enc) (ContentEncoding enc) (hash inf) (size inf) None)).
Proof.
  induction encs as [|enc rest IH]; simpl; [reflexivity|].
  rewrite stored_lookup.
  destruct (strings_Contains ae (ContentEncoding enc)); simpl; [|exact IH].
  destruct (info s !! (fn +:+ FileExt enc)) as [inf|] eqn:E; simpl.
  - rewrite E. reflexivity.
  - exact IH.
Qed.

(** The second loop returns for the first codec with a stored sidecar and a
    decoder. *)
Lemma serveDecompressed_find (s : Server) (c : Conn) (req : Request) (fn : string)
    (encs : list Encoding) :
  serveDecompressed s c req fn encs =
    (enc ← List.find (fun enc => stored s (fn +:+ FileExt enc) &&
                                  bool_decide (is_Some (Decoder enc))) encs;
     inf ← info s !! (fn +:+ FileExt enc);
     dec ← Decoder enc;
     Some (serve s c req fn (FileExt enc) "" (hash inf +:+ "U") 0 (Some dec))).
Proof.
  induction encs as [|enc rest IH]; simpl; [reflexivity|].
  rewrite stored_lookup.
  destruct (info s !! (fn +:+ FileExt enc)) as [inf|] eqn:E; simpl; [|exact IH].
  destruct (Decoder enc) as [dec|] eqn:D; simpl.
  - rewrite E, D. reflexivity.
  - exact IH.
Qed.

Lemma allowed_method_test (req : Request) :
  allowed_method req →
  negb (String.eqb (Method req) MethodGet) && negb (String.eqb (Method req) MethodHead) = false.
Proof.
  intros [E|E]; rewrite E; reflexivity.
Qed.

(** The second and third step, as the code takes them after the first loop. *)
Lemma later_steps (s : Server) (c : Conn) (req : Request) :
  let fn := request_path req in
  match info s !! fn with
  | Some u => serve s c req fn "" "" (hash u) (size u) None
  | None =>
      match serveDecompressed s c req fn (Encodings s) with
      | Some c' => c'
      | None => on_rw (fun w => http_NotFound w req) c
      end
  end =
  respond s c req
    match native_match s fn with
    | Some r => Some r
    | None => decompress_fallback s fn
    end.
Proof.
  intros fn. rewrite serveDecompressed_find.
  unfold native_match, decompress_fallback, respond. fold fn.
  destruct (info s !! fn) as [u|]; simpl; [reflexivity|].
  destruct (List.find _ (Encodings s)) as [enc|]; simpl; [|reflexivity].
  destruct (info s !! (fn +:+ FileExt enc)) as [inf|]; simpl; [|reflexivity].
  destruct (Decoder enc) as [dec|]; reflexivity.
Qed.

(** [ServeHTTP] hands the resolution of the request to the response writer. *)
Lemma ServeHTTP_respond (s : Server) (c : Conn) (req : Request) :
  allowed_method req →
  ServeHTTP s c req = respond s c req (resolution s req).
Proof.
  intros Hm. unfold ServeHTTP. rewrite (allowed_method_test req Hm).
  pose proof (later_steps s c req) as Hlater. simpl in Hlater.
  unfold resolution, negotiate, accept_encoding.
  fold (request_path req) in *.
  set (fn := request_path req) in *.
  set (ae := Header_Get (ReqHeader req) "Accept-Encoding").
  set (later := match native_match s fn with
                | Some r => Some r
                | None => decompress_fallback s fn
                end) in *.
  rewrite serveCompressed_find, Hlater.
  unfold compressed_accepted, names_wire.
  destruct (String.eqb ae "") eqn:Eae; simpl; [reflexivity|].
  destruct (List.find _ (Encodings s)) as [enc|]; simpl; [|reflexivity].
  destruct (info s !! (fn +:+ FileExt enc)) as [inf|]; simpl; reflexivity.
Qed.

End Negotiation.

(** ** The response writer [serve] *)

Section Serve.
Context `{Platform}.

Variables (s : Server) (c : Conn) (req : Request).
Variables (fn suf enc hash : string) (cl : Z).
Variable decompress : option (Reader -> Result Reader).

Lemma serve_not_modified :
  Header_Get (ReqHeader req) "If-None-Match" = hash →
  serve s c req fn suf enc hash cl decompress = on_rw (WriteHeader StatusNotModified) c.
Proof.
  intros E. unfold serve. rewrite E, String.eqb_refl. reflexivity.
Qed.

Lemma serve_open_failed (err : error) :
  Header_Get (ReqHeader req) "If-None-Match" ≠ hash →
  Open (fs s) (fn +:+ suf) = Err err →
  serve s c req fn suf enc hash cl decompress = hook s req err (at_open fn suf enc hash c).
Proof.
  intros E O. unfold serve.
  apply String.eqb_neq in E. rewrite E, O.
  unfold hook, at_open, with_headers, content_type.
  destruct (negb (String.eqb enc "")); reflexivity.
Qed.

Lemma serve_head (r : Reader) :
  Header_Get (ReqHeader req) "If-None-Match" ≠ hash →
  Open (fs s) (fn +:+ suf) = Ok r →
  Method req = MethodHead →
  serve s c req fn suf enc hash cl decompress = at_body fn suf enc hash cl c.
Proof.
  intros E O M. unfold serve.
  apply String.eqb_neq in E. rewrite E, O, M. simpl.
  unfold at_body, with_length, with_headers, content_type.
  destruct (negb (String.eqb enc "")), (0 <? cl); reflexivity.
Qed.

Lemma serve_get (r : Reader) :
  Header_Get (ReqHeader req) "If-None-Match" ≠ hash →
  Open (fs s) (fn +:+ suf) = Ok r →
  Method req ≠ MethodHead →
  serve s c req fn suf enc hash cl decompress =
    match decompress with
    | None => transfer s req fn r (at_body fn suf enc hash cl c)
    | Some d =>
        let c' := emit EvDecompress (at_body fn suf enc hash cl c) in
        match d r with
        | Ok r' => transfer s req fn r' c'
        | Err err => hook s req err (on_rw (del_header "Etag") c')
        end
    end.
Proof.
  intros E O M. unfold serve.
  apply String.eqb_neq in E. apply String.eqb_neq in M. rewrite E, O, M.
  unfold at_body, with_length, with_headers, content_type, transfer, copy_out, hook.
  destruct (negb (String.eqb enc "")), (0 <? cl), decompress as [d|];
    try destruct (d r) as [r'|err]; reflexivity.
Qed.

End Serve.

(** ** Headers set by [serve] *)

Section Headers.
Context `{Platform}.

Ltac header_lookup :=
  unfold with_length, with_headers, set_header, del_header, Header_Set, Header_Del; simpl;
  repeat match goal with
         | |- context [if ?b then _ else _] => destruct b; simpl
         end;
  repeat (rewrite lookup_insert_eq || (rewrite lookup_insert_ne by discriminate));
  try reflexivity.

Lemma with_headers_etag (fn enc hash : string) (w : ResponseWriter) :
  header (with_headers fn enc hash w) !! "Etag" = Some [hash].
Proof. header_lookup. Qed.

Lemma with_headers_content_type (fn enc hash : string) (w : ResponseWriter) :
  header (with_headers fn enc hash w) !! "Content-Type" = Some [content_type fn].
Proof. header_lookup. Qed.

Lemma with_headers_content_encoding (fn enc hash : string) (w : ResponseWriter) :
  header (with_headers fn enc hash w) !! "Content-Encoding" =
    if String.eqb enc "" then header w !! "Content-Encoding" else Some [enc].
Proof.
  unfold with_headers. destruct (String.eqb enc ""); simpl.
  - unfold Header_Set. rewrite !lookup_insert_ne by discriminate. reflexivity.
  - unfold Header_Set. rewrite lookup_insert_eq. reflexivity.
Qed.


Lemma with_headers_body (fn enc hash : string) (w : ResponseWriter) :
  written (with_headers fn enc hash w) = written w ∧
  status (with_headers fn enc hash w) = status w.
Proof.
  unfold with_headers. destruct (negb (String.eqb enc "")); split; reflexivity.
Qed.

Lemma with_length_lookup (cl : Z) (key : string) (w : ResponseWriter) :
  header (with_length cl w) !! key =
    if decide (0 < cl ∧ key = "Content-Length") then Some [strconv_Itoa cl]
    else header w !! key.
Proof.
  unfold with_length. destruct (0 <? cl) eqn:E.
  - apply Z.ltb_lt in E. simpl. unfold Header_Set.
    destruct (decide (0 < cl ∧ key = "Content-Length")) as [[_ ->]|N].
    + apply lookup_insert_eq.
    + apply lookup_insert_ne. intros <-. apply N. split; [assumption|reflexivity].
  - apply Z.ltb_ge in E.
    destruct (decide (0 < cl ∧ key = "Content-Length")) as [[L _]|N]; [lia|reflexivity].
Qed.


(** A copy that meets no error leaves the headers alone, appends the
    payload and answers 200 unless a status was already written. *)
Lemma copy_out_plain (s : Server) (req : Request) (r : Reader) (c : Conn) :
  read_err r = None →
  header (rw (copy_out s req r c)) = header (rw c) ∧
  written (rw (copy_out s req r c)) = (written (rw c) ++ contents r)%list ∧
  StatusCode (rw (copy_out s req r c)) = StatusCode (rw c) ∧
  events (copy_out s req r c) = (events c ++ [EvCopy])%list.
Proof.
  intros E. unfold copy_out. rewrite E.
  destruct c as [[hdr st wr] ev]. simpl.
  destruct (contents r) as [|b data]; simpl.
  - rewrite app_nil_r. repeat split; reflexivity.
  - unfold Write, WriteHeader, StatusCode.
    destruct st; simpl; repeat split; reflexivity.
Qed.

End Headers.

(** ** What a resolution is made of *)

Section Resolved.
Context `{Platform}.

Lemma find_some_first {A : Type} (f : A → bool) (l : list A) (x : A) :
  List.find f l = Some x → In x l ∧ f x = true.
Proof. apply List.find_some. Qed.

(** A resolution comes from one of the three steps, with the index record of
    the file it names. *)
Lemma resolution_cases (s : Server) (req : Request) (r : Resolution) :
  resolution s req = Some r →
  let fn := request_path req in
  (∃ enc inf, In enc (Encodings s) ∧ accept_encoding req ≠ "" ∧
              names_wire (accept_encoding req) enc = true ∧
              info s !! (fn +:+ FileExt enc) = Some inf ∧
              r = {| r_suf := FileExt enc; r_enc := ContentEncoding enc; r_hash := hash inf;
                     r_cl := size inf; r_decompress := None |}) ∨
  (∃ inf, info s !! fn = Some inf ∧
          r = {| r_suf := ""; r_enc := ""; r_hash := hash inf; r_cl := size inf;
                 r_decompress := None |}) ∨
  (info s !! fn = None ∧
   ∃ enc inf dec, In enc (Encodings s) ∧ info s !! (fn +:+ FileExt enc) = Some inf ∧
                  Decoder enc = Some dec ∧
                  r = {| r_suf := FileExt enc; r_enc := ""; r_hash := hash inf +:+ "U";
                         r_cl := 0; r_decompress := Some dec |}).
Proof.
  intros R fn. unfold resolution, negotiate in R. fold fn in R.
  destruct (compressed_accepted names_wire s fn (accept_encoding req)) as [r1|] eqn:S1.
  - left. injection R as ->. unfold compressed_accepted in S1.
    destruct (String.eqb (accept_encoding req) "") eqn:Eae; [discriminate|].
    apply String.eqb_neq in Eae.
    destruct (List.find _ (Encodings s)) as [enc|] eqn:F; simpl in S1; [|discriminate].
    apply find_some_first in F as [Hin Hf]. apply andb_true_iff in Hf as [Hn _].
    destruct (info s !! (fn +:+ FileExt enc)) as [inf|] eqn:I; simpl in S1; [|discriminate].
    injection S1 as <-. exists enc, inf. auto.
  - destruct (native_match s fn) as [r2|] eqn:S2.
    + right. left. injection R as ->. unfold native_match in S2.
      destruct (info s !! fn) as [inf|] eqn:I; simpl in S2; [|discriminate].
      injection S2 as <-. exists inf. auto.
    + right. right. unfold native_match in S2.
      destruct (info s !! fn) as [inf0|] eqn:I0; simpl in S2; [discriminate|].
      split; [reflexivity|]. unfold decompress_fallback in R.
      destruct (List.find _ (Encodings s)) as [enc|] eqn:F; simpl in R; [|discriminate].
      apply find_some_first in F as [Hin _].
      destruct (info s !! (fn +:+ FileExt enc)) as [inf|] eqn:I; simpl in R; [|discriminate].
      destruct (Decoder enc) as [dec|] eqn:D; simpl in R; [|discriminate].
      injection R as <-. exists enc, inf, dec. auto.
Qed.

(** The resolution does not depend on the method. *)
Lemma resolution_with_method (s : Server) (req : Request) (m : string) :
  resolution s (with_method m req) = resolution s req.
Proof. reflexivity. Qed.

End Resolved.

(** ** Conditional requests *)

Section Conditional.
Context `{Platform}.

Lemma WriteHeader_frame (code : Z) (w : ResponseWriter) :
  header (WriteHeader code w) = header w ∧
  written (WriteHeader code w) = written w ∧
  (status w = None → status (WriteHeader code w) = Some code).
Proof.
  unfold WriteHeader. destruct (status w) eqn:S; simpl; repeat split; try reflexivity.
  discriminate.
Qed.

(** C6: a resolved request whose If-None-Match equals the chosen validator
    is answered by [WriteHeader(304)] alone: the header map and the body are
    what they were when the handler was entered (so no ETag, Content-Type or
    Content-Encoding is added and nothing is written), the status is 304, and
    no event has happened, in particular no open and no read of the file. *)
Theorem not_modified_short_circuit (s : Server) (c : Conn) (req : Request) (r : Resolution) :
  allowed_method req →
  resolution s req = Some r →
  Header_Get (ReqHeader req) "If-None-Match" = r_hash r →
  let out := ServeHTTP s c req in
  header (rw out) = header (rw c) ∧
  written (rw out) = written (rw c) ∧
  events out = events c ∧
  (status (rw c) = None → status (rw out) = Some StatusNotModified).
Proof.
  intros Hm R E out. subst out.
  rewrite (ServeHTTP_respond s c req Hm), R. simpl.
  rewrite serve_not_modified by exact E.
  unfold on_rw. simpl.
  destruct (WriteHeader_frame StatusNotModified (rw c)) as (Hh & Hw & Hs).
  repeat split; assumption.
Qed.

End Conditional.

Lemma not_modified_short_circuit_witness :
  let req := Example.get "/a.txt" [("Accept-Encoding", "gzip"); ("If-None-Match", "1xneddq8u2d2d")] in
  let out := Example.handle Example.server req in
  header (rw out) = ∅ ∧ written (rw out) = [] ∧ events out = [] ∧
  (status (rw Example.fresh) = None → status (rw out) = Some 304).
Proof.
  intros req out.
  apply (not_modified_short_circuit (H := Example.platform) Example.server Example.fresh req
           {| r_suf := ".gz"; r_enc := "gzip"; r_hash := "1xneddq8u2d2d"; r_cl := 7;
              r_decompress := None |}).
  - left. reflexivity.
  - vm_compute. reflexivity.
  - vm_compute. reflexivity.
Defined.

(** ** Failures after the headers *)

Section Failures.
Context `{Platform}.

(** C10: for a resolved request that is not answered 304, a failing open
    makes [serve] call the error hook on a response writer that carries the
    validator as ETag, the Content-Type of the asset path and, when the
    resolution has a content encoding, that Content-Encoding; nothing has
    been written and no status set by [serve].  The hook gets a response
    writer without ETag only on the third path below, the failing decode; a
    failing copy again leaves the ETag in place. *)
Theorem open_failure_keeps_headers (s : Server) (c : Conn) (req : Request) (r : Resolution) :
  allowed_method req →
  resolution s req = Some r →
  Header_Get (ReqHeader req) "If-None-Match" ≠ r_hash r →
  let fn := request_path req in
  let out := ServeHTTP s c req in
  (∀ err, Open (fs s) (fn +:+ r_suf r) = Err err →
     ∃ w, out = {| rw := OnError s w req err;
                   events := events c ++ [EvOpen (fn +:+ r_suf r); EvOnError err] |} ∧
          header w !! "Etag" = Some [r_hash r] ∧
          header w !! "Content-Type" = Some [content_type fn] ∧
          (r_enc r ≠ "" → header w !! "Content-Encoding" = Some [r_enc r]) ∧
          written w = written (rw c) ∧ status w = status (rw c)) ∧
  (∀ rd d err, Open (fs s) (fn +:+ r_suf r) = Ok rd → Method req = MethodGet →
     r_decompress r = Some d → d rd = Err err →
     ∃ w, rw out = OnError s w req err ∧
          header w !! "Etag" = None ∧
          header w !! "Content-Type" = Some [content_type fn]) ∧
  (∀ rd rd' err, Open (fs s) (fn +:+ r_suf r) = Ok rd → Method req = MethodGet →
     match r_decompress r with Some d => d rd | None => Ok rd end = Ok rd' →
     seekable rd' = false → read_err rd' = Some err →
     ∃ w, rw out = OnError s w req err ∧
          header w !! "Etag" = Some [r_hash r]).
Proof.
  intros Hm R E fn out. subst out.
  rewrite (ServeHTTP_respond s c req Hm), R. simpl. fold fn.
  split; [|split].
  - intros err O. rewrite (serve_open_failed _ _ _ _ _ _ _ _ _ err E O).
    exists (with_headers fn (r_enc r) (r_hash r) (rw c)).
    split; [unfold hook, at_open; simpl; rewrite <- app_assoc; reflexivity|].
    split; [apply with_headers_etag|].
    split; [apply with_headers_content_type|].
    split.
    + intros Ne. rewrite with_headers_content_encoding.
      apply String.eqb_neq in Ne. rewrite Ne. reflexivity.
    + apply with_headers_body.
  - intros rd d err O M D Ed.
    assert (Hh : Method req ≠ MethodHead) by (rewrite M; discriminate).
    rewrite (serve_get _ _ _ _ _ _ _ _ _ rd E O Hh), D. simpl. rewrite Ed.
    eexists. split; [reflexivity|]. simpl.
    unfold Header_Del. split.
    + apply lookup_delete_eq.
    + rewrite lookup_delete_ne by discriminate.
      rewrite with_length_lookup.
      destruct (decide _) as [[_ ?]|_]; [discriminate|].
      apply with_headers_content_type.
  - intros rd rd' err O M D Hs Hr.
    assert (Hh : Method req ≠ MethodHead) by (rewrite M; discriminate).
    rewrite (serve_get _ _ _ _ _ _ _ _ _ rd E O Hh).
    assert (Hw : ∀ c', header (rw c') !! "Etag" = Some [r_hash r] →
              ∃ w, rw (transfer s req fn rd' c') = OnError s w req err ∧
                   header w !! "Etag" = Some [r_hash r]).
    { intros c' Hc'. unfold transfer, copy_out. rewrite Hs, Hr. simpl.
      eexists. split; [reflexivity|].
      destruct (contents rd'); [exact Hc'|].
      unfold Write, WriteHeader. destruct (status (rw c')); exact Hc'. }
    assert (Hb : header (rw (at_body fn (r_suf r) (r_enc r) (r_hash r) (r_cl r) c)) !! "Etag"
                 = Some [r_hash r]).
    { simpl. rewrite with_length_lookup.
      destruct (decide _) as [[_ ?]|_]; [discriminate|]. apply with_headers_etag. }
    destruct (r_decompress r) as [d|].
    + simpl. rewrite D. apply Hw. exact Hb.
    + injection D as <-. apply Hw. exact Hb.
Qed.

End Failures.

Lemma open_failure_keeps_headers_witness :
  let req := Example.get "/a.txt" [("Accept-Encoding", "gzip")] in
  let out := Example.handle Example.server_gone req in
  ∃ w, out = {| rw := OnError Example.server_gone w req "file does not exist";
                events := [EvOpen "a.txt.gz"; EvOnError "file does not exist"] |} ∧
       header w !! "Etag" = Some ["1xneddq8u2d2d"] ∧
       header w !! "Content-Type" = Some ["text/plain; charset=utf-8"] ∧
       ("gzip" ≠ "" → header w !! "Content-Encoding" = Some ["gzip"]) ∧
       written w = [] ∧ status w = None.
Proof.
  intros req out.
  refine (proj1 (open_failure_keeps_headers (H := Example.platform) Example.server_gone
                   Example.fresh req
                   {| r_suf := ".gz"; r_enc := "gzip"; r_hash := "1xneddq8u2d2d"; r_cl := 7;
                      r_decompress := None |} _ _ _) "file does not exist" _).
  - left. reflexivity.
  - vm_compute. reflexivity.
  - vm_compute. discriminate.
  - vm_compute. reflexivity.
Defined.

(** C2: the handler run on a request that accepts gzip for a path with a
    stored gzip sidecar: the sidecar is served with Content-Encoding gzip and
    the response has no Vary header. *)
Theorem compressed_response_without_vary :
  let req := Example.get "/a.txt" [("Accept-Encoding", "gzip")] in
  let out := Example.handle Example.server req in
  StatusCode (rw out) = 200 ∧
  header (rw out) !! "Content-Encoding" = Some ["gzip"] ∧
  written (rw out) = Example.toy_gzip (bytes_of "hello") ∧
  header (rw out) !! "Vary" = None.
Proof.
  vm_compute. repeat split; reflexivity.
Qed.

(** ** HEAD requests and the declared length *)

Section HeadAndLength.
Context `{Platform}.

Lemma append_empty_r (x : string) : x +:+ "" = x.
Proof.
  induction x as [|a x' IH]; [reflexivity|].
  change (String a (x' +:+ "") = String a x'). rewrite IH. reflexivity.
Qed.



End HeadAndLength.





(** ** The decompress fallback *)

Section Fallback.
Context `{Platform}.




End Fallback.



(** ** The existence predicate and the validators *)

Section FoundAndValidators.
Context `{Platform}.

Lemma existsb_find {A : Type} (f : A → bool) (l : list A) :
  existsb f l = true ↔ is_Some (List.find f l).
Proof.
  induction l as [|a l IH]; simpl.
  - split; [discriminate|]. intros [x Hx]. discriminate.
  - destruct (f a); simpl; [|exact IH]. split; eauto.
Qed.

Lemma compressed_accepted_found (s : Server) (fn ae : string) :
  is_Some (compressed_accepted names_wire s fn ae) ↔
  negb (String.eqb ae "") &&
  existsb (fun enc => strings_Contains (strings_ToLower ae) (ContentEncoding enc) &&
                      bool_decide (is_Some (info s !! (fn +:+ FileExt enc))))
          (Encodings s) = true.
Proof.
  unfold compressed_accepted.
  destruct (String.eqb ae "") eqn:Eae; simpl.
  - split; [intros [x Hx]; discriminate|discriminate].
  - rewrite existsb_find. unfold names_wire, stored.
    destruct (List.find _ (Encodings s)) as [enc|] eqn:F; simpl.
    + apply List.find_some in F as [_ Hf]. apply andb_true_iff in Hf as [_ Hst].
      apply bool_decide_eq_true in Hst as [inf I]. rewrite I. simpl. split; eauto.
    + split; intros [x Hx]; discriminate.
Qed.

Lemma native_match_found (s : Server) (fn : string) :
  is_Some (native_match s fn) ↔ bool_decide (is_Some (info s !! fn)) = true.
Proof.
  unfold native_match. rewrite bool_decide_eq_true.
  destruct (info s !! fn) as [inf|]; simpl; split; eauto; intros [x Hx]; discriminate.
Qed.

Lemma decompress_fallback_found (s : Server) (fn : string) :
  is_Some (decompress_fallback s fn) ↔
  existsb (fun enc => bool_decide (is_Some (info s !! (fn +:+ FileExt enc))) &&
                      bool_decide (is_Some (Decoder enc)))
          (Encodings s) = true.
Proof.
  unfold decompress_fallback. rewrite existsb_find. unfold stored.
  destruct (List.find _ (Encodings s)) as [enc|] eqn:F; simpl.
  - apply List.find_some in F as [_ Hf]. apply andb_true_iff in Hf as [Hst Hd].
    apply bool_decide_eq_true in Hst as [inf I]. apply bool_decide_eq_true in Hd as [dec D].
    rewrite I. simpl. rewrite D. simpl. split; eauto.
  - split; intros [x Hx]; discriminate.
Qed.

Lemma not_found_status (w : ResponseWriter) (req : Request) :
  status w = None → StatusCode (http_NotFound w req) = 404.
Proof.
  intros S. unfold http_NotFound, http_Error, Write, WriteHeader, StatusCode. simpl.
  rewrite S. reflexivity.
Qed.

(** C3: [Found] holds exactly when the negotiation of [ServeHTTP] resolves
    the request; for a GET or HEAD request, when [Found] is false the handler
    answers with [http.NotFound] (status 404), and when it is true the
    handler passes a resolved representation to [serve].  [Found] is a
    function of the server and the request alone: it takes no response
    writer and no file system action is part of it. *)
Theorem Found_iff_resolves (s : Server) (c : Conn) (req : Request) :
  (Found s req = true ↔ is_Some (resolution s req)) ∧
  (allowed_method req →
   (Found s req = false →
      ServeHTTP s c req = on_rw (fun w => http_NotFound w req) c ∧
      (status (rw c) = None → StatusCode (rw (ServeHTTP s c req)) = 404)) ∧
   (Found s req = true →
      ∃ r, resolution s req = Some r ∧
           ServeHTTP s c req =
             serve s c req (request_path req) (r_suf r) (r_enc r) (r_hash r) (r_cl r)
                   (r_decompress r))).
Proof.
  assert (Hiff : Found s req = true ↔ is_Some (resolution s req)).
  { unfold Found, resolution, negotiate.
    fold (request_path req). fold (accept_encoding req).
    set (fn := request_path req). set (ae := accept_encoding req).
    rewrite !orb_true_iff.
    rewrite <- compressed_accepted_found, <- native_match_found, <- decompress_fallback_found.
    destruct (compressed_accepted names_wire s fn ae) as [r1|].
    - split; eauto.
    - destruct (native_match s fn) as [r2|].
      + split; eauto.
      + split.
        * intros [[[x Hx]|[x Hx]]|Hs]; try discriminate. exact Hs.
        * intros Hs. right. exact Hs. }
  split; [exact Hiff|].
  intros Hm. rewrite (ServeHTTP_respond s c req Hm). split.
  - intros Hf. destruct (resolution s req) as [r|] eqn:R.
    + assert (Found s req = true) by (apply Hiff; eauto). congruence.
    + simpl. split; [reflexivity|]. apply not_found_status.
  - intros Hf. apply Hiff in Hf as [r R]. exists r. rewrite R. split; reflexivity.
Qed.

Lemma length_append (x y : string) :
  String.length (x +:+ y) = (String.length x + String.length y)%nat.
Proof.
  induction x as [|a x' IH]; [reflexivity|].
  change (S (String.length (x' +:+ y)) = S (String.length x' + String.length y)).
  rewrite IH. reflexivity.
Qed.

Lemma append_longer (x y : string) : y ≠ "" → x +:+ y ≠ x.
Proof.
  intros Hy Heq. apply (f_equal String.length) in Heq.
  rewrite length_append in Heq.
  destruct y as [|a y']; [congruence|]. simpl in Heq. lia.
Qed.

(** C4: when one request resolves to the verbatim transfer of a stored file
    (path plus suffix) and another to the decompress fallback of the same
    file, the first is served with the hash of the index record as
    validator, the second with that hash followed by the marker "U", and the
    two validators differ. *)
Theorem decompressed_validator_differs (s : Server) (c1 c2 : Conn) (req1 req2 : Request)
    (r1 r2 : Resolution) :
  allowed_method req1 → allowed_method req2 →
  request_path req1 = request_path req2 →
  resolution s req1 = Some r1 → resolution s req2 = Some r2 →
  r_suf r1 = r_suf r2 →
  r_decompress r1 = None → r_decompress r2 ≠ None →
  let fn := request_path req1 in
  ∃ inf dec,
    info s !! (fn +:+ r_suf r1) = Some inf ∧
    ServeHTTP s c1 req1 = serve s c1 req1 fn (r_suf r1) (r_enc r1) (hash inf) (size inf) None ∧
    ServeHTTP s c2 req2 = serve s c2 req2 fn (r_suf r1) "" (hash inf +:+ "U") 0 (Some dec) ∧
    hash inf +:+ "U" ≠ hash inf.
Proof.
  intros Hm1 Hm2 Hp R1 R2 Hsuf D1 D2 fn.
  rewrite (ServeHTTP_respond s c1 req1 Hm1), (ServeHTTP_respond s c2 req2 Hm2), R1, R2.
  simpl. rewrite <- Hp. fold fn.
  assert (V : ∃ inf, info s !! (fn +:+ r_suf r1) = Some inf ∧
                     r_hash r1 = hash inf ∧ r_cl r1 = size inf).
  { destruct (resolution_cases s req1 r1 R1) as
      [(enc & inf & _ & _ & _ & I & ->) | [(inf & I & ->) | (_ & enc & inf & dec & _ & _ & _ & ->)]];
      simpl in *.
    - exists inf. auto.
    - exists inf. rewrite append_empty_r. auto.
    - discriminate. }
  destruct V as (inf & I & Eh1 & Ec1).
  assert (F : ∃ inf' dec, info s !! (fn +:+ r_suf r2) = Some inf' ∧
                          r_enc r2 = "" ∧ r_hash r2 = hash inf' +:+ "U" ∧ r_cl r2 = 0 ∧
                          r_decompress r2 = Some dec).
  { destruct (resolution_cases s req2 r2 R2) as
      [(enc & inf' & _ & _ & _ & _ & ->) | [(inf' & _ & ->) | (_ & enc & inf' & dec & _ & I' & _ & ->)]];
      simpl in *; try congruence.
    exists inf', dec. rewrite <- Hp in I'. auto. }
  destruct F as (inf' & dec & I' & Ee2 & Eh2 & Ec2 & Ed2).
  rewrite <- Hsuf in I'. rewrite I in I'. injection I' as <-.
  exists inf, dec. split; [exact I|].
  rewrite D1, Eh1, Ec1, Ee2, Eh2, Ec2, Ed2, <- Hsuf.
  split; [reflexivity|]. split; [reflexivity|].
  apply append_longer. discriminate.
Qed.


End FoundAndValidators.

Lemma Found_iff_resolves_witness :
  let req := Example.get "/nope" [("Accept-Encoding", "gzip")] in
  Found Example.server req = false ∧
  Example.handle Example.server req =
    on_rw (fun w => http_NotFound w req) Example.fresh ∧
  StatusCode (rw (Example.handle Example.server req)) = 404.
Proof.
  intros req.
  assert (Hf : Found Example.server req = false) by (vm_compute; reflexivity).
  destruct (proj1 (proj2 (Found_iff_resolves (H := Example.platform) Example.server
                            Example.fresh req) (or_introl eq_refl)) Hf) as [E S].
  exact (conj Hf (conj E (S eq_refl))).
Defined.

Lemma decompressed_validator_differs_witness :
  let req1 := Example.get "/deeper/b.bin" [("Accept-Encoding", "gzip")] in
  let req2 := Example.get "/deeper/b.bin" [("Accept-Encoding", "identity")] in
  ∃ inf dec,
    info Example.server !! ("deeper/b.bin" +:+ ".gz") = Some inf ∧
    Example.handle Example.server req1 =
      serve (H := Example.platform) Example.server Example.fresh req1 "deeper/b.bin" ".gz"
            "gzip" (hash inf) (size inf) None ∧
    Example.handle Example.server req2 =
      serve (H := Example.platform) Example.server Example.fresh req2 "deeper/b.bin" ".gz"
            "" (hash inf +:+ "U") 0 (Some dec) ∧
    hash inf +:+ "U" ≠ hash inf.
Proof.
  intros req1 req2.
  apply (decompressed_validator_differs (H := Example.platform) Example.server
           Example.fresh Example.fresh req1 req2
           {| r_suf := ".gz"; r_enc := "gzip"; r_hash := "3uj6y8ba1nkvf"; r_cl := 6;
              r_decompress := None |}
           {| r_suf := ".gz"; r_enc := ""; r_hash := "3uj6y8ba1nkvfU"; r_cl := 0;
              r_decompress := Some Example.toy_gunzip |}).
  - left. reflexivity.
  - left. reflexivity.
  - reflexivity.
  - vm_compute. reflexivity.
  - vm_compute. reflexivity.
  - reflexivity.
  - reflexivity.
  - discriminate.
Defined.



(** ** The index built by [FileServer] *)

Section Index.
Context `{Platform}.

Variable open : string → Result Reader.

Lemma Tree_nested_ind (P : Tree → Prop) :
  P TFile →
  (∀ err, P (TDir (Err err))) →
  (∀ files, Forall (λ nf, P (snd nf)) files → P (TDir (Ok files))) →
  ∀ d, P d.
Proof.
  intros HF HE HD. fix IH 1. intros [|[files|err]]; [exact HF| |apply HE].
  apply HD.
  exact ((fix all (l : list (string * Tree)) : Forall (λ nf, P (snd nf)) l :=
            match l with
            | [] => Forall_nil_2 _
            | nf :: rest => Forall_cons_2 _ nf rest (IH (snd nf)) (all rest)
            end) files).
Qed.

Lemma hashDir_listing (p : string) (files : list (string * Tree)) (m : gmap string fileInfo) :
  hashDir open p (TDir (Ok files)) m = hashRange open p files m.
Proof.
  simpl. revert m. induction files as [|[name f] rest IH]; intros m; [reflexivity|].
  simpl. destruct f as [|l].
  - destruct (open _) as [r|]; [|reflexivity]. destruct (read_err r); [reflexivity|].
    apply IH.
  - destruct (hashDir open _ (TDir l) m); [apply IH|reflexivity].
Qed.

Lemma entries_under_listing (p : string) (files : list (string * Tree)) :
  entries_under p (TDir (Ok files)) = entriesRange p files.
Proof.
  simpl. induction files as [|[name f] rest IH]; [reflexivity|].
  simpl. destruct f; rewrite IH; reflexivity.
Qed.

Lemma healthy_listing (p : string) (files : list (string * Tree)) :
  healthy open p (TDir (Ok files)) = healthyRange open p files.
Proof.
  simpl. induction files as [|[name f] rest IH]; [reflexivity|].
  simpl. destruct f; rewrite IH; reflexivity.
Qed.

Lemma files_of_app (l k : list (string * bool)) :
  files_of (l ++ k) = (files_of l ++ files_of k)%list.
Proof. unfold files_of. rewrite filter_app, fmap_app. reflexivity. Qed.

Lemma files_of_file (fn : string) (l : list (string * bool)) :
  files_of ((fn, false) :: l) = fn :: files_of l.
Proof. unfold files_of. rewrite filter_cons_True by reflexivity. reflexivity. Qed.

Lemma files_of_dir (fn : string) (l : list (string * bool)) :
  files_of ((fn, true) :: l) = files_of l.
Proof. unfold files_of. rewrite filter_cons_False by discriminate. reflexivity. Qed.

(** A walk over a healthy tree returns the index with every file met added,
    in order; a walk over a tree that is not healthy returns an error. *)
Lemma hashDir_walk (d : Tree) :
  ∀ p m,
    (healthy open p d = true →
     hashDir open p d m = Ok (fold_left (index_file open) (files_under p d) m)) ∧
    (healthy open p d = false → ∃ err, hashDir open p d m = Err err).
Proof.
  induction d as [|err|files IH] using Tree_nested_ind; intros p m.
  - split; [discriminate|]. intros _. eexists. reflexivity.
  - split; [discriminate|]. intros _. eexists. reflexivity.
  - rewrite hashDir_listing, healthy_listing. unfold files_under.
    rewrite entries_under_listing.
    revert m. induction files as [|[name f] rest IHr]; intros m.
    + split; [reflexivity|discriminate].
    + apply Forall_cons in IH as [IHf IHrest]. specialize (IHr IHrest).
      cbn [snd] in IHf. cbn [hashRange healthyRange entriesRange].
      set (fn := path_Join [p; name]).
      destruct f as [|l].
      * rewrite files_of_file. cbn [fold_left]. unfold index_file at 2.
        destruct (open fn) as [r|err] eqn:O; [|split; [discriminate|eauto]].
        destruct (read_err r) as [err|] eqn:Er.
        { split; [|eauto]. rewrite bool_decide_eq_false_2 by discriminate. discriminate. }
        rewrite bool_decide_eq_true_2 by reflexivity. cbn [andb].
        apply IHr.
      * rewrite files_of_dir, files_of_app, fold_left_app.
        destruct (IHf fn m) as [Hok Hbad].
        destruct (healthy open fn (TDir l)) eqn:Hh; cbn [andb].
        -- rewrite (Hok eq_refl). apply IHr.
        -- destruct (Hbad eq_refl) as [err ->]. split; [discriminate|eauto].
Qed.

(** In a healthy tree every file met opens and reads to its end. *)
Lemma healthy_files (d : Tree) :
  ∀ p fn, healthy open p d = true → fn ∈ files_under p d →
          ∃ r, open fn = Ok r ∧ read_err r = None.
Proof.
  induction d as [|err|files IH] using Tree_nested_ind; intros p fn; try discriminate.
  rewrite healthy_listing. unfold files_under. rewrite entries_under_listing.
  induction files as [|[name f] rest IHr]; cbn [healthyRange entriesRange].
  - intros _ Hin. apply elem_of_nil in Hin. contradiction.
  - apply Forall_cons in IH as [IHf IHrest]. specialize (IHr IHrest). cbn [snd] in IHf.
    set (fn' := path_Join [p; name]).
    destruct f as [|l].
    + rewrite files_of_file.
      destruct (open fn') as [r|] eqn:O; [|discriminate].
      intros Hh Hin. apply andb_true_iff in Hh as [Hr Hh].
      apply bool_decide_eq_true in Hr.
      apply elem_of_cons in Hin as [->|Hin]; [eauto|]. apply IHr; assumption.
    + rewrite files_of_dir, files_of_app.
      intros Hh Hin. apply andb_true_iff in Hh as [Hl Hh].
      apply elem_of_app in Hin as [Hin|Hin]; [|apply IHr; assumption].
      apply (IHf fn' fn Hl Hin).
Qed.

Lemma index_fold_other (fns : list string) (m : gmap string fileInfo) (key : string) :
  key ∉ path_Clean <$> fns →
  fold_left (index_file open) fns m !! key = m !! key.
Proof.
  revert m. induction fns as [|fn rest IH]; intros m Hnot; [reflexivity|].
  simpl. rewrite fmap_cons in Hnot. apply not_elem_of_cons in Hnot as [Hne Hnot].
  rewrite IH by exact Hnot. unfold index_file.
  destruct (open fn); [|reflexivity]. apply lookup_insert_ne. congruence.
Qed.

Lemma index_fold_file (fns : list string) (m : gmap string fileInfo) (fn : string)
    (r : Reader) :
  NoDup (path_Clean <$> fns) → fn ∈ fns → open fn = Ok r →
  fold_left (index_file open) fns m !! path_Clean fn = Some (record_of (contents r)).
Proof.
  revert m. induction fns as [|a rest IH]; intros m Hnd Hin O.
  - apply elem_of_nil in Hin. contradiction.
  - rewrite fmap_cons in Hnd. apply NoDup_cons in Hnd as [Hnot Hnd]. simpl.
    destruct (decide (path_Clean fn ∈ path_Clean <$> rest)) as [Hk|Hk].
    + apply elem_of_cons in Hin as [->|Hin]; [contradiction|]. apply IH; assumption.
    + rewrite index_fold_other by exact Hk.
      apply elem_of_cons in Hin as [->|Hin].
      * unfold index_file. rewrite O. apply lookup_insert_eq.
      * exfalso. apply Hk. apply list_elem_of_fmap_2. exact Hin.
Qed.

Lemma index_fold_dom (fns : list string) (m : gmap string fileInfo) (key : string) :
  is_Some (fold_left (index_file open) fns m !! key) →
  is_Some (m !! key) ∨ key ∈ path_Clean <$> fns.
Proof.
  intros Hs. destruct (decide (key ∈ path_Clean <$> fns)) as [Hk|Hk]; [right; exact Hk|].
  left. rewrite index_fold_other in Hs; assumption.
Qed.

End Index.

Section Construction.
Context `{Platform}.

Lemma options_keep_private (options : list (Server → Server)) (s : Server) :
  Forall keeps_private options →
  info (fold_left (λ s o, o s) options s) = info s ∧
  fs (fold_left (λ s o, o s) options s) = fs s.
Proof.
  intros Hk. revert s. induction Hk as [|o rest Ho _ IH]; intros s; [split; reflexivity|].
  simpl. destruct (IH (o s)) as [Hi Hf]. destruct (Ho s) as [Hi' Hf'].
  rewrite Hi, Hf, Hi', Hf'. split; reflexivity.
Qed.

(** The options of the repository assign [OnError] and [Encodings] only. *)
Lemma OnErrorOption_keeps_private
    (onErr : ResponseWriter → Request → error → ResponseWriter) :
  keeps_private (OnErrorOption onErr).
Proof. intros s. split; reflexivity. Qed.

Lemma brotli_AddEncoding_keeps_private : keeps_private brotli_AddEncoding.
Proof. intros s. split; reflexivity. Qed.

Lemma index_fold_in (open : string → Result Reader) (fns : list string)
    (m : gmap string fileInfo) (key : string) :
  (∀ fn, fn ∈ fns → ∃ r, open fn = Ok r) →
  key ∈ path_Clean <$> fns →
  is_Some (fold_left (index_file open) fns m !! key).
Proof.
  revert m. induction fns as [|a rest IH]; intros m Hopen Hin.
  - apply elem_of_nil in Hin. contradiction.
  - simpl. destruct (decide (key ∈ path_Clean <$> rest)) as [Hr|Hr].
    + apply IH; [|exact Hr]. intros fn Hfn. apply Hopen. right. exact Hfn.
    + rewrite index_fold_other by exact Hr.
      rewrite fmap_cons in Hin. apply elem_of_cons in Hin as [->|Hin]; [|contradiction].
      destruct (Hopen a) as [r O]; [left|]. unfold index_file. rewrite O.
      rewrite lookup_insert_eq. eauto.
Qed.

Lemma same_key_same_entry (entries : list (string * bool)) (a b : string * bool) :
  NoDup (path_Clean <$> (fst <$> entries)) →
  a ∈ entries → b ∈ entries → path_Clean (fst a) = path_Clean (fst b) → a = b.
Proof.
  induction entries as [|e rest IH]; intros Hnd Ha Hb Hk.
  - apply elem_of_nil in Ha. contradiction.
  - rewrite !fmap_cons in Hnd. apply NoDup_cons in Hnd as [Hnot Hnd].
    assert (Hin : ∀ x, x ∈ rest → path_Clean (fst x) ∈ path_Clean <$> (fst <$> rest)).
    { intros x Hx. apply list_elem_of_fmap_2. apply list_elem_of_fmap_2. exact Hx. }
    apply elem_of_cons in Ha as [->|Ha]; apply elem_of_cons in Hb as [->|Hb].
    + reflexivity.
    + exfalso. apply Hnot. rewrite Hk. apply Hin. exact Hb.
    + exfalso. apply Hnot. rewrite <- Hk. apply Hin. exact Ha.
    + apply IH; assumption.
Qed.

Lemma files_of_elem (entries : list (string * bool)) (fn : string) :
  fn ∈ files_of entries ↔ (fn, false) ∈ entries.
Proof.
  unfold files_of. rewrite list_elem_of_fmap. split.
  - intros ([fn' b] & -> & Hin). apply list_elem_of_filter in Hin as [Hb Hin].
    simpl in *. subst b. exact Hin.
  - intros Hin. exists (fn, false). split; [reflexivity|].
    apply list_elem_of_filter. split; [reflexivity|exact Hin].
Qed.

Lemma dirs_of_elem (entries : list (string * bool)) (dn : string) :
  dn ∈ dirs_of entries ↔ (dn, true) ∈ entries.
Proof.
  unfold dirs_of. rewrite list_elem_of_fmap. split.
  - intros ([dn' b] & -> & Hin). apply list_elem_of_filter in Hin as [Hb Hin].
    simpl in *. subst b. exact Hin.
  - intros Hin. exists (dn, true). split; [reflexivity|].
    apply list_elem_of_filter. split; [reflexivity|exact Hin].
Qed.

Lemma files_of_NoDup (entries : list (string * bool)) :
  NoDup (path_Clean <$> (fst <$> entries)) → NoDup (path_Clean <$> files_of entries).
Proof.
  induction entries as [|[fn b] rest IH]; intros Hnd; [constructor|].
  rewrite !fmap_cons in Hnd. apply NoDup_cons in Hnd as [Hnot Hnd].
  destruct b.
  - unfold files_of. rewrite filter_cons_False by discriminate. apply IH. exact Hnd.
  - unfold files_of. rewrite filter_cons_True by reflexivity. rewrite !fmap_cons.
    apply NoDup_cons. split; [|apply IH; exact Hnd].
    intros Hin. apply Hnot. cbn [fst] in *.
    apply list_elem_of_fmap in Hin as (fn' & Hk & Hin). rewrite Hk.
    apply list_elem_of_fmap_2.
    apply list_elem_of_fmap in Hin as (e & -> & Hin).
    apply list_elem_of_filter in Hin as [_ Hin]. apply list_elem_of_fmap_2. exact Hin.
Qed.

(** C7: [FileServer] with options that assign exported fields only.  When a
    directory of the tree cannot be listed or a file cannot be opened or read
    to its end, construction ends in the panic and returns no server.
    Otherwise it returns a server over the given file system whose index has
    as keys exactly the cleaned paths of the non-directory entries of the
    walk; when the entries of the walk have distinct cleaned paths, as the
    entries of a file tree do, every such file is mapped to the base-36 text
    of the FNV-1 64-bit hash of its bytes and to their count, and no
    directory of the walk is a key.  (The handlers take the server as an
    argument and return a response only: nothing writes the index after
    construction.) *)
Theorem index_is_the_walk (fsys : ReadDirFS) (options : list (Server → Server)) :
  Forall keeps_private options →
  (healthy (Open fsys) "." (tree fsys) = false →
     ∃ err, FileServer fsys options = Err err) ∧
  (healthy (Open fsys) "." (tree fsys) = true →
     ∃ s, FileServer fsys options = Ok s ∧ fs s = fsys ∧
       (∀ key, is_Some (info s !! key) ↔ key ∈ path_Clean <$> files_under "." (tree fsys)) ∧
       (NoDup (path_Clean <$> (fst <$> entries_under "." (tree fsys))) →
          (∀ fn, fn ∈ files_under "." (tree fsys) →
             ∃ r, Open fsys fn = Ok r ∧ read_err r = None ∧
                  info s !! path_Clean fn =
                    Some {| hash := strconv_FormatUint (fnv_Sum64 (contents r)) 36;
                            size := Z.of_nat (length (contents r)) |}) ∧
          (∀ dn, dn ∈ dirs_under "." (tree fsys) → info s !! path_Clean dn = None))).
Proof.
  intros Hk. unfold FileServer.
  set (s0 := {| fs := fsys; info := ∅; OnError := _; Encodings := _ |}).
  destruct (options_keep_private options s0 Hk) as [Hi Hf].
  set (s1 := fold_left (λ s o, o s) options s0) in *.
  rewrite Hi, Hf. simpl.
  destruct (hashDir_walk (Open fsys) (tree fsys) "." ∅) as [Hok Hbad].
  split.
  - intros Hh. destruct (Hbad Hh) as [err ->]. eauto.
  - intros Hh. rewrite (Hok Hh).
    set (m := fold_left (index_file (Open fsys)) (files_under "." (tree fsys)) ∅).
    exists (set_info m s1). split; [reflexivity|]. split; [exact Hf|].
    assert (Hfile : ∀ fn, fn ∈ files_under "." (tree fsys) →
                     ∃ r, Open fsys fn = Ok r ∧ read_err r = None)
      by (intros fn; apply healthy_files; exact Hh).
    simpl. split; [|intros Hnd; split].
    + intros key. split.
      * intros Hs. apply index_fold_dom in Hs as [[x Hx]|Hin]; [|exact Hin].
        rewrite lookup_empty in Hx. discriminate.
      * intros Hin. apply index_fold_in; [|exact Hin].
        intros fn Hfn. destruct (Hfile fn Hfn) as (r & O & _). eauto.
    + intros fn Hin. destruct (Hfile fn Hin) as (r & O & Er).
      exists r. split; [exact O|]. split; [exact Er|].
      apply index_fold_file; [|exact Hin|exact O].
      apply files_of_NoDup. exact Hnd.
    + intros dn Hin.
      destruct (m !! path_Clean dn) as [inf|] eqn:L; [|reflexivity]. exfalso.
      assert (Hs : is_Some (m !! path_Clean dn)) by eauto.
      apply index_fold_dom in Hs as [[x Hx]|Hk'];
        [rewrite lookup_empty in Hx; discriminate|].
      apply list_elem_of_fmap in Hk' as (fn & Hkey & Hfn).
      apply files_of_elem in Hfn. apply dirs_of_elem in Hin.
      pose proof (same_key_same_entry _ (dn, true) (fn, false) Hnd Hin Hfn Hkey) as Heq.
      discriminate.
Qed.

End Construction.

Lemma index_is_the_walk_witness :
  (∃ err, FileServer (H := Example.platform) Example.fsys_unlistable [] = Err err) ∧
  (∃ s, FileServer (H := Example.platform) Example.fsys
                   [brotli_AddEncoding (H := Example.platform)] = Ok s ∧
        info s !! "deeper/b.bin.gz" =
          Some {| hash := "3uj6y8ba1nkvf"; size := 6 |} ∧
        info s !! "deeper" = None).
Proof.
  split.
  - apply (proj1 (index_is_the_walk (H := Example.platform) Example.fsys_unlistable []
                    (Forall_nil_2 _))).
    vm_compute. reflexivity.
  - assert (Hk : Forall keeps_private [brotli_AddEncoding (H := Example.platform)]).
    { apply Forall_cons_2; [|apply Forall_nil_2]. intros s. split; reflexivity. }
    destruct (proj2 (index_is_the_walk (H := Example.platform) Example.fsys _ Hk))
      as (s & E & _ & _ & Hrec).
    { vm_compute. reflexivity. }
    exists s. split; [exact E|].
    destruct Hrec as [Hfiles Hdirs].
    { apply (bool_decide_unpack _). vm_compute. exact I. }
    split.
    + destruct (Hfiles "deeper/b.bin.gz") as (r & O & _ & L).
      { apply (bool_decide_unpack _). vm_compute. exact I. }
      vm_compute in O. injection O as <-. exact L.
    + apply (Hdirs "deeper"). apply (bool_decide_unpack _). vm_compute. exact I.
Defined.

(** ** Methods, and the files a request touches *)

Section MethodsAndOpens.
Context `{Platform}.

Lemma not_allowed_test (req : Request) :
  Method req ≠ MethodGet → Method req ≠ MethodHead →
  negb (String.eqb (Method req) MethodGet) && negb (String.eqb (Method req) MethodHead) = true.
Proof.
  intros G Hd. apply String.eqb_neq in G. apply String.eqb_neq in Hd.
  rewrite G, Hd. reflexivity.
Qed.

(** The 405 answer causes no event. *)
Lemma method_not_allowed_events (s : Server) (c : Conn) (req : Request) :
  Method req ≠ MethodGet → Method req ≠ MethodHead →
  events (ServeHTTP s c req) = events c.
Proof.
  intros G Hd. unfold ServeHTTP. rewrite (not_allowed_test req G Hd). reflexivity.
Qed.

(** X1: a request whose method is neither GET nor HEAD is answered without
    looking at the index or the file system: no I/O event, the Allow header
    "GET, HEAD", status 405 (unless a status was written before) and the
    fixed text as body; the answer is the same for every server. *)
Theorem method_not_allowed_answer (s : Server) (c : Conn) (req : Request) :
  Method req ≠ MethodGet → Method req ≠ MethodHead →
  let out := ServeHTTP s c req in
  events out = events c ∧
  header (rw out) !! "Allow" = Some ["GET, HEAD"] ∧
  header (rw out) !! "Content-Type" = Some ["text/plain; charset=utf-8"] ∧
  (status (rw c) = None → status (rw out) = Some 405) ∧
  written (rw out) =
    (written (rw c) ++
     bytes_of ("Method Not Allowed" +:+ nl +:+ nl +:+ "method should be GET or HEAD" +:+ nl))%list ∧
  ∀ s', ServeHTTP s' c req = out.
Proof.
  intros G Hd out. subst out.
  assert (E : ∀ s0, ServeHTTP s0 c req =
                on_rw (λ w, http_Error w ("Method Not Allowed" +:+ nl +:+ nl +:+
                                          "method should be GET or HEAD")
                                       StatusMethodNotAllowed)
                      (on_rw (set_header "Allow" (MethodGet +:+ ", " +:+ MethodHead)) c)).
  { intros s0. unfold ServeHTTP. rewrite (not_allowed_test req G Hd). reflexivity. }
  rewrite E.
  destruct c as [[hdr st wr] ev]. simpl.
  unfold http_Error, Write, WriteHeader, set_header, Header_Set. simpl.
  split; [reflexivity|].
  split; [destruct st; simpl; rewrite !lookup_insert_ne by discriminate;
          apply lookup_insert_eq|].
  split; [destruct st; simpl; rewrite lookup_insert_ne by discriminate;
          apply lookup_insert_eq|].
  split; [intros ->; reflexivity|].
  split; [destruct st; reflexivity|].
  intros s'. rewrite E. reflexivity.
Qed.

(** The events of [serve]: nothing, or the open of [fn+suf] followed by
    events that are no opens. *)
Lemma serve_events (s : Server) (c : Conn) (req : Request) (fn suf enc hash : string)
    (cl : Z) (decompress : option (Reader → Result Reader)) :
  ∃ l, events (serve s c req fn suf enc hash cl decompress) = (events c ++ l)%list ∧
       (l = [] ∨ ∃ tail, l = EvOpen (fn +:+ suf) :: tail ∧
                         Forall (λ e, ∀ k, e ≠ EvOpen k) tail).
Proof.
  destruct (decide (Header_Get (ReqHeader req) "If-None-Match" = hash)) as [E|E].
  { rewrite serve_not_modified by exact E. exists []. simpl.
    rewrite app_nil_r. split; [reflexivity|left; reflexivity]. }
  destruct (Open (fs s) (fn +:+ suf)) as [rd|err] eqn:O.
  2:{ rewrite (serve_open_failed _ _ _ _ _ _ _ _ _ err E O).
      exists [EvOpen (fn +:+ suf); EvOnError err]. simpl. rewrite <- app_assoc.
      split; [reflexivity|]. right. eexists. split; [reflexivity|].
      repeat constructor. discriminate. }
  destruct (decide (Method req = MethodHead)) as [M|M].
  { rewrite (serve_head _ _ _ _ _ _ _ _ _ rd E O M).
    exists [EvOpen (fn +:+ suf)]. simpl. split; [reflexivity|].
    right. eexists. split; [reflexivity|]. constructor. }
  rewrite (serve_get _ _ _ _ _ _ _ _ _ rd E O M).
  assert (T : ∀ r' c', ∃ t, events (transfer s req fn r' c') = (events c' ++ t)%list ∧
                            Forall (λ e, ∀ k, e ≠ EvOpen k) t).
  { intros r' c'. unfold transfer, copy_out.
    destruct (seekable r'); simpl.
    - exists [EvServeContent]. split; [reflexivity|]. repeat constructor. discriminate.
    - destruct (read_err r') as [err|]; simpl.
      + exists [EvCopy; EvOnError err]. rewrite <- app_assoc.
        split; [reflexivity|]. repeat constructor; discriminate.
      + exists [EvCopy]. split; [reflexivity|]. repeat constructor. discriminate. }
  destruct decompress as [d|].
  - simpl. destruct (d rd) as [r'|err].
    + destruct (T r' (emit EvDecompress (at_body fn suf enc hash cl c))) as (t & Et & Ft).
      exists (EvOpen (fn +:+ suf) :: EvDecompress :: t). rewrite Et. simpl.
      rewrite <- !app_assoc. split; [reflexivity|].
      right. eexists. split; [reflexivity|]. constructor; [discriminate|exact Ft].
    + exists [EvOpen (fn +:+ suf); EvDecompress; EvOnError err]. simpl.
      rewrite <- !app_assoc. split; [reflexivity|].
      right. eexists. split; [reflexivity|]. repeat constructor; discriminate.
  - destruct (T rd (at_body fn suf enc hash cl c)) as (t & Et & Ft).
    exists (EvOpen (fn +:+ suf) :: t). rewrite Et. simpl. rewrite <- app_assoc.
    split; [reflexivity|]. right. eexists. split; [reflexivity|exact Ft].
Qed.

(** A resolution names a key of the index. *)
Lemma resolution_indexed (s : Server) (req : Request) (r : Resolution) :
  resolution s req = Some r → is_Some (info s !! (request_path req +:+ r_suf r)).
Proof.
  intros R.
  destruct (resolution_cases s req r R) as
    [(enc & inf & _ & _ & _ & I & ->) | [(inf & I & ->) | (_ & enc & inf & dec & _ & I & _ & ->)]];
    simpl; try rewrite append_empty_r; eauto.
Qed.

(** X2: whatever the request, [ServeHTTP] opens at most one file, and the
    file it opens is a key of the index: a path that was not indexed at
    construction is never asked of the file system. *)
Theorem opens_only_indexed (s : Server) (c : Conn) (req : Request) :
  ∃ l, events (ServeHTTP s c req) = (events c ++ l)%list ∧
       (l = [] ∨ ∃ key tail, l = EvOpen key :: tail ∧
                             is_Some (info s !! key) ∧
                             Forall (λ e, ∀ k, e ≠ EvOpen k) tail).
Proof.
  destruct (decide (Method req = MethodGet)) as [G|G];
    [|destruct (decide (Method req = MethodHead)) as [Hd|Hd]].
  3:{ exists []. rewrite app_nil_r.
      split; [apply (method_not_allowed_events s c req G Hd)|left; reflexivity]. }
  all: assert (Hm : allowed_method req) by (unfold allowed_method; auto).
  all: rewrite (ServeHTTP_respond s c req Hm).
  all: destruct (resolution s req) as [r|] eqn:R; simpl;
       [|exists []; rewrite app_nil_r; split; [reflexivity|left; reflexivity]].
  all: destruct (serve_events s c req (request_path req) (r_suf r) (r_enc r) (r_hash r)
                   (r_cl r) (r_decompress r)) as (l & El & [->|(tail & -> & Ft)]).
  all: try (exists []; split; [exact El|left; reflexivity]).
  all: eexists; split; [exact El|]; right; eexists _, tail;
       split; [reflexivity|]; split; [exact (resolution_indexed s req r R)|exact Ft].
Qed.

End MethodsAndOpens.

Lemma method_not_allowed_answer_witness :
  let req := with_method "DELETE" (Example.get "/a.txt" []) in
  let out := Example.handle Example.server req in
  events out = [] ∧
  header (rw out) !! "Allow" = Some ["GET, HEAD"] ∧
  header (rw out) !! "Content-Type" = Some ["text/plain; charset=utf-8"] ∧
  (status (rw Example.fresh) = None → status (rw out) = Some 405) ∧
  written (rw out) =
    ([] ++ bytes_of ("Method Not Allowed" +:+ nl +:+ nl +:+
                     "method should be GET or HEAD" +:+ nl))%list ∧
  ∀ s', ServeHTTP (H := Example.platform) s' Example.fresh req = out.
Proof.
  intros req out.
  apply (method_not_allowed_answer (H := Example.platform) Example.server Example.fresh req);
    discriminate.
Defined.

(** ** Which representation is negotiated *)

Section Priority.
Context `{Platform}.













End Priority.





(** ** Complete responses *)

Section CompleteResponses.
Context `{Platform}.





Lemma Header_Get_Set (key value : string) (h : Header) :
  Header_Get (Header_Set key value h) key = value.
Proof. unfold Header_Get, Header_Set. rewrite lookup_insert_eq. reflexivity. Qed.

Lemma Header_Get_Set_other (key key' value : string) (h : Header) :
  key ≠ key' → Header_Get (Header_Set key value h) key' = Header_Get h key'.
Proof.
  intros Hne. unfold Header_Get, Header_Set. rewrite lookup_insert_ne by exact Hne.
  reflexivity.
Qed.

Lemma resolution_with_req_header (s : Server) (req : Request) (key value : string) :
  key ≠ "Accept-Encoding" →
  resolution s (with_req_header key value req) = resolution s req.
Proof.
  intros Hne. unfold resolution, accept_encoding, with_req_header. simpl.
  rewrite Header_Get_Set_other by exact Hne. reflexivity.
Qed.

(** X9: the ETag revalidates.  Take a resolved GET or HEAD request that is
    not answered 304 and whose file opens; for HEAD, or for a GET that
    decodes without error (if it decodes) and copies a stream that is not
    seekable and ends without error, the ETag of the response is the
    validator of the resolution, and the same request sent again -- as GET
    or as HEAD -- with that ETag in If-None-Match is answered by
    [WriteHeader(304)] alone. *)
Theorem etag_round_trip (s : Server) (c c' : Conn) (req : Request) (r : Resolution)
    (rd : Reader) (m : string) :
  allowed_method req →
  resolution s req = Some r →
  Header_Get (ReqHeader req) "If-None-Match" ≠ r_hash r →
  Open (fs s) (request_path req +:+ r_suf r) = Ok rd →
  (Method req = MethodHead ∨
   ∃ rd', match r_decompress r with Some d => d rd | None => Ok rd end = Ok rd' ∧
          seekable rd' = false ∧ read_err rd' = None) →
  m = MethodGet ∨ m = MethodHead →
  let etag := Header_Get (header (rw (ServeHTTP s c req))) "Etag" in
  etag = r_hash r ∧
  ServeHTTP s c' (with_method m (with_req_header "If-None-Match" etag req)) =
    on_rw (WriteHeader StatusNotModified) c'.
Proof.
  intros Hm R E O Hpath Hmeth etag.
  assert (Hetag : etag = r_hash r).
  { subst etag. rewrite (ServeHTTP_respond s c req Hm), R. simpl.
    set (fn := request_path req) in *.
    assert (Hb : Header_Get (header (rw (at_body fn (r_suf r) (r_enc r) (r_hash r)
                                                 (r_cl r) c))) "Etag" = r_hash r).
    { unfold Header_Get. simpl. rewrite with_length_lookup.
      destruct (decide _) as [[_ ?]|_]; [discriminate|].
      rewrite with_headers_etag. reflexivity. }
    destruct Hpath as [Mh|(rd' & D & Hs & Hr)].
    - rewrite (serve_head _ _ _ _ _ _ _ _ _ rd E O Mh). exact Hb.
    - destruct (decide (Method req = MethodHead)) as [Mh|Mh].
      + rewrite (serve_head _ _ _ _ _ _ _ _ _ rd E O Mh). exact Hb.
      + rewrite (serve_get _ _ _ _ _ _ _ _ _ rd E O Mh).
        assert (Ht : ∀ c0, rw c0 = rw (at_body fn (r_suf r) (r_enc r) (r_hash r) (r_cl r) c) →
                  Header_Get (header (rw (transfer s req fn rd' c0))) "Etag" = r_hash r).
        { intros c0 Hc0. unfold transfer. rewrite Hs.
          destruct (copy_out_plain s req rd' c0 Hr) as (Hhd & _).
          unfold Header_Get in *. rewrite Hhd, Hc0. exact Hb. }
        destruct (r_decompress r) as [d|].
        * simpl. rewrite D. apply Ht. reflexivity.
        * injection D as <-. apply Ht. reflexivity. }
  split; [exact Hetag|].
  set (req' := with_method m (with_req_header "If-None-Match" etag req)).
  assert (Hm' : allowed_method req') by exact Hmeth.
  rewrite (ServeHTTP_respond s c' req' Hm').
  assert (R' : resolution s req' = Some r).
  { unfold req'. rewrite resolution_with_method, resolution_with_req_header by discriminate.
    exact R. }
  rewrite R'. simpl. apply serve_not_modified.
  unfold req'. simpl. rewrite Header_Get_Set. exact Hetag.
Qed.

End CompleteResponses.



Lemma etag_round_trip_witness :
  let req := Example.get "/deeper/b.bin" [("Accept-Encoding", "identity")] in
  let etag := Header_Get (header (rw (Example.handle Example.server req))) "Etag" in
  etag = "3uj6y8ba1nkvfU" ∧
  Example.handle Example.server
    (with_method MethodGet (with_req_header "If-None-Match" etag req)) =
    on_rw (WriteHeader StatusNotModified) Example.fresh.
Proof.
  intros req.
  apply (etag_round_trip (H := Example.platform) Example.server Example.fresh Example.fresh
           req
           {| r_suf := ".gz"; r_enc := ""; r_hash := "3uj6y8ba1nkvfU"; r_cl := 0;
              r_decompress := Some Example.toy_gunzip |}
           {| contents := Example.toy_gzip (bytes_of "bin!"); read_err := None;
              seekable := false |}
           MethodGet).
  - left. reflexivity.
  - vm_compute. reflexivity.
  - vm_compute. discriminate.
  - vm_compute. reflexivity.
  - right. exists {| contents := bytes_of "bin!"; read_err := None; seekable := false |}.
    repeat split; reflexivity.
  - left. reflexivity.
Defined.

(** ** Servers built by [FileServer] *)

Section Built.
Context `{Platform}.

(** The index of a built server is the fold of [index_file] over the files
    of the walk. *)
Lemma FileServer_index (fsys : ReadDirFS) (options : list (Server → Server)) (s : Server) :
  Forall keeps_private options →
  FileServer fsys options = Ok s →
  info s = fold_left (index_file (Open fsys)) (files_under "." (tree fsys)) ∅ ∧
  fs s = fsys ∧
  healthy (Open fsys) "." (tree fsys) = true.
Proof.
  intros Hk. unfold FileServer.
  set (s0 := {| fs := fsys; info := ∅; OnError := _; Encodings := _ |}).
  destruct (options_keep_private options s0 Hk) as [Hi Hf].
  set (s1 := fold_left (λ s o, o s) options s0) in *.
  rewrite Hi, Hf. simpl.
  destruct (hashDir_walk (Open fsys) (tree fsys) "." ∅) as [Hok Hbad].
  destruct (healthy (Open fsys) "." (tree fsys)) eqn:Hh.
  - rewrite (Hok eq_refl). intros [= <-]. simpl. auto.
  - destruct (Hbad eq_refl) as [err ->]. discriminate.
Qed.

Lemma index_fold_records (open : string → Result Reader) (fns : list string)
    (m : gmap string fileInfo) (key : string) (inf : fileInfo) :
  fold_left (index_file open) fns m !! key = Some inf →
  m !! key = Some inf ∨ ∃ data, inf = record_of data.
Proof.
  revert m. induction fns as [|a rest IH]; intros m L; [left; exact L|].
  simpl in L. apply IH in L as [L|L]; [|right; exact L].
  unfold index_file in L. destruct (open a) as [r|]; [|left; exact L].
  destruct (decide (path_Clean a = key)) as [<-|Hne].
  - rewrite lookup_insert_eq in L. injection L as <-. right. eauto.
  - rewrite lookup_insert_ne in L by exact Hne. left. exact L.
Qed.

(** Every record of a built server is the record of some payload. *)
Lemma built_records (fsys : ReadDirFS) (options : list (Server → Server)) (s : Server)
    (key : string) (inf : fileInfo) :
  Forall keeps_private options →
  FileServer fsys options = Ok s →
  info s !! key = Some inf → ∃ data, inf = record_of data.
Proof.
  intros Hk Hs L. destruct (FileServer_index fsys options s Hk Hs) as (Hi & _ & _).
  rewrite Hi in L. apply index_fold_records in L as [L|L]; [|exact L].
  rewrite lookup_empty in L. discriminate.
Qed.

Lemma get_chars (n : nat) (x : string) (ch : ascii) :
  String.get n x = Some ch → In ch (chars x).
Proof.
  revert n. induction x as [|a x IH]; intros n; [discriminate|].
  destruct n as [|n]; simpl.
  - intros [= ->]. left. reflexivity.
  - intros G. right. exact (IH n G).
Qed.

Lemma digit_chars (d : Z) : In (digit d) (chars digits).
Proof.
  unfold digit. destruct (String.get (Z.to_nat d) digits) as [ch|] eqn:G.
  - exact (get_chars _ _ _ G).
  - left. reflexivity.
Qed.

Lemma formatBits_chars (fuel : nat) (u base : Z) (acc : string) :
  Forall (λ ch, In ch (chars digits)) (chars acc) →
  Forall (λ ch, In ch (chars digits)) (chars (formatBits fuel u base acc)).
Proof.
  revert u acc. induction fuel as [|fuel IH]; intros u acc Hacc; [exact Hacc|].
  simpl. destruct (u <? base).
  - apply Forall_cons_2; [apply digit_chars|exact Hacc].
  - apply IH. apply Forall_cons_2; [apply digit_chars|exact Hacc].
Qed.

Lemma formatBits_not_empty (fuel : nat) (u base : Z) (acc : string) :
  acc ≠ "" → formatBits fuel u base acc ≠ "".
Proof.
  revert u acc. induction fuel as [|fuel IH]; intros u acc Hacc; [exact Hacc|].
  simpl. destruct (u <? base); [discriminate|]. apply IH. discriminate.
Qed.

(** The text of [strconv.FormatUint] is never empty and is made of the
    digits 0-9 and a-z. *)
Lemma FormatUint_text (i base : Z) :
  strconv_FormatUint i base ≠ "" ∧
  Forall (λ ch, In ch (chars digits)) (chars (strconv_FormatUint i base)).
Proof.
  split.
  - unfold strconv_FormatUint.
    change (formatBits 65 i base "") with
      (if i <? base then String (digit i) ""
       else formatBits 64 (i / base) base (String (digit (i mod base)) "")).
    destruct (i <? base); [discriminate|]. apply formatBits_not_empty. discriminate.
  - apply formatBits_chars. constructor.
Qed.

Lemma chars_append (x y : string) : chars (x +:+ y) = (chars x ++ chars y)%list.
Proof.
  induction x as [|a x IH]; [reflexivity|].
  change (a :: chars (x +:+ y) = a :: (chars x ++ chars y)%list). rewrite IH. reflexivity.
Qed.

Lemma marked_hash_is_no_hash (data data' : list byte) :
  hash (record_of data) +:+ "U" ≠ hash (record_of data').
Proof.
  intros E. destruct (FormatUint_text (fnv_Sum64 data') 36) as [_ Hd].
  assert (Hu : In "U"%char (chars (hash (record_of data')))).
  { rewrite <- E, chars_append. apply in_or_app. right. left. reflexivity. }
  simpl in Hu. rewrite Forall_forall in Hd. apply list_elem_of_In in Hu.
  specialize (Hd _ Hu). vm_compute in Hd.
  repeat (destruct Hd as [Hd|Hd]; [discriminate|]). exact Hd.
Qed.

(** X10: in a server built by [FileServer] (with options that assign
    exported fields only) the validator of a decompressed variant -- a hash
    followed by "U" -- is not the hash of any indexed file: hashes are
    base-36 texts in lower case.  So no request resolved to a verbatim
    transfer has the validator of the decompressed variant of any file, and
    no request resolved to the fallback has the bare hash of any file. *)
Theorem marker_never_collides (fsys : ReadDirFS) (options : list (Server → Server))
    (s : Server) :
  Forall keeps_private options →
  FileServer fsys options = Ok s →
  (∀ k1 k2 i1 i2, info s !! k1 = Some i1 → info s !! k2 = Some i2 →
                  hash i1 +:+ "U" ≠ hash i2) ∧
  (∀ req r k i, resolution s req = Some r → info s !! k = Some i →
     match r_decompress r with
     | None => r_hash r ≠ hash i +:+ "U"
     | Some _ => r_hash r ≠ hash i
     end).
Proof.
  intros Hk Hs.
  assert (Hidx : ∀ k1 k2 i1 i2, info s !! k1 = Some i1 → info s !! k2 = Some i2 →
                                hash i1 +:+ "U" ≠ hash i2).
  { intros k1 k2 i1 i2 L1 L2.
    destruct (built_records fsys options s k1 i1 Hk Hs L1) as [d1 ->].
    destruct (built_records fsys options s k2 i2 Hk Hs L2) as [d2 ->].
    apply marked_hash_is_no_hash. }
  split; [exact Hidx|].
  intros req r k i R L.
  destruct (resolution_cases s req r R) as
    [(enc & inf & _ & _ & _ & I & ->) | [(inf & I & ->) | (_ & enc & inf & dec & _ & I & _ & ->)]];
    simpl.
  - intros E. exact (Hidx _ _ _ _ L I (eq_sym E)).
  - intros E. exact (Hidx _ _ _ _ L I (eq_sym E)).
  - exact (Hidx _ _ _ _ I L).
Qed.

(** [serve] opens the file whenever the validator is not matched. *)
Lemma serve_opens (s : Server) (c : Conn) (req : Request) (fn suf enc hash : string)
    (cl : Z) (decompress : option (Reader → Result Reader)) :
  Header_Get (ReqHeader req) "If-None-Match" ≠ hash →
  ∃ tail, events (serve s c req fn suf enc hash cl decompress) =
          (events c ++ EvOpen (fn +:+ suf) :: tail)%list.
Proof.
  intros E.
  destruct (Open (fs s) (fn +:+ suf)) as [rd|err] eqn:O.
  2:{ rewrite (serve_open_failed _ _ _ _ _ _ _ _ _ err E O).
      exists [EvOnError err]. simpl. rewrite <- app_assoc. reflexivity. }
  destruct (decide (Method req = MethodHead)) as [M|M].
  { rewrite (serve_head _ _ _ _ _ _ _ _ _ rd E O M). exists []. reflexivity. }
  rewrite (serve_get _ _ _ _ _ _ _ _ _ rd E O M).
  assert (T : ∀ r' c', ∃ t, events (transfer s req fn r' c') = (events c' ++ t)%list).
  { intros r' c'. unfold transfer, copy_out.
    destruct (seekable r'); simpl; [eexists; reflexivity|].
    destruct (read_err r'); simpl; [|eexists; reflexivity].
    eexists. rewrite <- app_assoc. reflexivity. }
  destruct decompress as [d|].
  - simpl. destruct (d rd) as [r'|err].
    + destruct (T r' (emit EvDecompress (at_body fn suf enc hash cl c))) as (t & ->).
      simpl. rewrite <- !app_assoc. eexists. reflexivity.
    + simpl. rewrite <- !app_assoc. eexists. reflexivity.
  - destruct (T rd (at_body fn suf enc hash cl c)) as (t & ->).
    simpl. rewrite <- app_assoc. eexists. reflexivity.
Qed.

(** X11: a server built by [FileServer] never answers 304 to a request
    without If-None-Match: the validators are never empty, so for every
    resolved GET or HEAD request that carries no If-None-Match value the
    handler goes on to open the resolved file. *)
Theorem unconditional_request_opens (fsys : ReadDirFS) (options : list (Server → Server))
    (s : Server) (c : Conn) (req : Request) (r : Resolution) :
  Forall keeps_private options →
  FileServer fsys options = Ok s →
  allowed_method req →
  resolution s req = Some r →
  Header_Get (ReqHeader req) "If-None-Match" = "" →
  r_hash r ≠ "" ∧
  ∃ tail, events (ServeHTTP s c req) =
          (events c ++ EvOpen (request_path req +:+ r_suf r) :: tail)%list.
Proof.
  intros Hk Hs Hm R E.
  assert (Hne : r_hash r ≠ "").
  { destruct (resolution_cases s req r R) as
      [(enc & inf & _ & _ & _ & I & ->) | [(inf & I & ->) | (_ & enc & inf & dec & _ & I & _ & ->)]];
      simpl; destruct (built_records fsys options s _ inf Hk Hs I) as [d ->]; simpl.
    - apply FormatUint_text.
    - apply FormatUint_text.
    - intros E'. apply (f_equal String.length) in E'. rewrite length_append in E'.
      simpl in E'. lia. }
  split; [exact Hne|].
  rewrite (ServeHTTP_respond s c req Hm), R. simpl.
  apply serve_opens. rewrite E. congruence.
Qed.

(** X12: [brotli.AddEncoding] as the last option gives the server that the
    other options give, with the brotli codec put in front of its codecs: the
    index and the error hook are the same, and ".br" has priority over
    every codec registered before. *)
Theorem brotli_is_prepended (fsys : ReadDirFS) (options : list (Server → Server))
    (s : Server) :
  FileServer fsys options = Ok s →
  ∃ s', FileServer fsys (options ++ [brotli_AddEncoding]) = Ok s' ∧
        Encodings s' =
          {| FileExt := ".br"; ContentEncoding := "br";
             Decoder := Some (λ r, Ok (brotli_NewReader r));
             Encoder := Some brotli_Compress |} :: Encodings s ∧
        info s' = info s ∧ OnError s' = OnError s ∧ fs s' = fs s.
Proof.
  unfold FileServer. rewrite fold_left_app. simpl.
  set (s1 := fold_left (λ s o, o s) options _).
  destruct (hashDir (Open (fs s1)) "." (tree (fs s1)) (info s1)) as [inf|err];
    [|discriminate].
  intros [= <-]. eexists. split; [reflexivity|]. simpl. auto.
Qed.

(** X13: the error hook of a server built without an option that assigns
    [OnError] answers 500 with the fixed text "Internal Server Error" as
    plain text, whatever the error is: nothing of the error reaches the
    client. *)
Theorem default_hook_hides_error (fsys : ReadDirFS) (options : list (Server → Server))
    (s : Server) (w : ResponseWriter) (req : Request) (err : error) :
  Forall (λ o, ∀ s0, OnError (o s0) = OnError s0) options →
  FileServer fsys options = Ok s →
  let w' := OnError s w req err in
  (status w = None → status w' = Some 500) ∧
  written w' = (written w ++ bytes_of ("Internal Server Error" +:+ nl))%list ∧
  header w' !! "Content-Type" = Some ["text/plain; charset=utf-8"] ∧
  ∀ req' err', OnError s w req' err' = w'.
Proof.
  intros Hk. unfold FileServer.
  set (s0 := {| fs := fsys; info := ∅; OnError := _; Encodings := _ |}).
  assert (Hh : ∀ s1, OnError (fold_left (λ s o, o s) options s1) = OnError s1).
  { induction Hk as [|o rest Ho _ IH]; intros s1; [reflexivity|].
    simpl. rewrite IH. apply Ho. }
  set (s1 := fold_left (λ s o, o s) options s0) in *.
  destruct (hashDir (Open (fs s1)) "." (tree (fs s1)) (info s1)) as [inf|e];
    [|discriminate].
  intros Heq. injection Heq as <-. cbv zeta. simpl. unfold s1. rewrite Hh. simpl.
  unfold http_Error, Write, WriteHeader, set_header, Header_Set. simpl.
  split; [intros ->; reflexivity|].
  split; [destruct (status w); reflexivity|].
  split; [destruct (status w); simpl; rewrite lookup_insert_ne by discriminate;
          apply lookup_insert_eq|].
  intros req' err'. reflexivity.
Qed.

Lemma index_fold_keeps (open : string → Result Reader) (fns : list string)
    (m : gmap string fileInfo) (key : string) :
  is_Some (m !! key) → is_Some (fold_left (index_file open) fns m !! key).
Proof.
  revert m. induction fns as [|a rest IH]; intros m Hs; [exact Hs|].
  simpl. apply IH. unfold index_file. destruct (open a) as [r|]; [|exact Hs].
  destruct (decide (path_Clean a = key)) as [<-|Hne].
  - rewrite lookup_insert_eq. eauto.
  - rewrite lookup_insert_ne by exact Hne. exact Hs.
Qed.

(** X14: a walk that succeeds only adds to the index it was given.  Every
    key that was there is still there, the record of every key that is not
    the cleaned path of a file under the directory is unchanged, and every
    file under the directory has a record: walking a sub-directory does not
    disturb what the walk of its parent has collected. *)
Theorem hashDir_frame (open : string → Result Reader) (p : string) (d : Tree)
    (m m' : gmap string fileInfo) :
  hashDir open p d m = Ok m' →
  (∀ key, is_Some (m !! key) → is_Some (m' !! key)) ∧
  (∀ key, key ∉ path_Clean <$> files_under p d → m' !! key = m !! key) ∧
  (∀ fn, fn ∈ files_under p d → is_Some (m' !! path_Clean fn)).
Proof.
  intros Hd. destruct (hashDir_walk open d p m) as [Hok Hbad].
  destruct (healthy open p d) eqn:Hh.
  2:{ destruct (Hbad eq_refl) as [err E]. rewrite E in Hd. discriminate. }
  rewrite (Hok eq_refl) in Hd. injection Hd as <-.
  split; [intros key; apply index_fold_keeps|].
  split; [intros key; apply index_fold_other|].
  intros fn Hin. apply index_fold_in.
  - intros fn' Hin'. destruct (healthy_files open d p fn' Hh Hin') as (r & O & _). eauto.
  - apply list_elem_of_fmap_2. exact Hin.
Qed.

End Built.

Section MoreBuilt.
Context `{Platform}.

(** X15: the option [OnError] as the last option gives the server that the
    other options give, with the given hook in place of its error hook: the
    index and the codecs are the same. *)
Theorem OnError_is_installed (fsys : ReadDirFS) (options : list (Server → Server))
    (s : Server) (onErr : ResponseWriter → Request → error → ResponseWriter) :
  FileServer fsys options = Ok s →
  ∃ s', FileServer fsys (options ++ [OnErrorOption onErr]) = Ok s' ∧
        OnError s' = onErr ∧
        Encodings s' = Encodings s ∧ info s' = info s ∧ fs s' = fs s.
Proof.
  unfold FileServer. rewrite fold_left_app. simpl.
  set (s1 := fold_left (λ s o, o s) options _).
  destruct (hashDir (Open (fs s1)) "." (tree (fs s1)) (info s1)) as [inf|err];
    [|discriminate].
  intros Heq. injection Heq as <-. eexists. split; [reflexivity|]. simpl. auto.
Qed.


End MoreBuilt.

Lemma marker_never_collides_witness :
  let i1 := {| hash := "3uj6y8ba1nkvf"; size := 6 |} in
  let i2 := {| hash := "1xneddq8u2d2d"; size := 7 |} in
  info Example.server !! "deeper/b.bin.gz" = Some i1 ∧
  info Example.server !! "a.txt.gz" = Some i2 ∧
  hash i1 +:+ "U" ≠ hash i2.
Proof.
  intros i1 i2.
  assert (L1 : info Example.server !! "deeper/b.bin.gz" = Some i1) by reflexivity.
  assert (L2 : info Example.server !! "a.txt.gz" = Some i2) by reflexivity.
  split; [exact L1|]. split; [exact L2|].
  refine (proj1 (marker_never_collides (H := Example.platform) Example.fsys
                   [brotli_AddEncoding (H := Example.platform)] Example.server _ _)
                "deeper/b.bin.gz" "a.txt.gz" i1 i2 L1 L2).
  - apply Forall_cons_2; [|apply Forall_nil_2]. intros s. split; reflexivity.
  - reflexivity.
Defined.

Lemma unconditional_request_opens_witness :
  let req := Example.get "/a.txt" [] in
  "1vhsp6t4dqdon" ≠ "" ∧
  ∃ tail, events (Example.handle Example.server req) = ([] ++ EvOpen "a.txt" :: tail)%list.
Proof.
  intros req.
  apply (unconditional_request_opens (H := Example.platform) Example.fsys
           [brotli_AddEncoding (H := Example.platform)] Example.server Example.fresh req
           {| r_suf := ""; r_enc := ""; r_hash := "1vhsp6t4dqdon"; r_cl := 5;
              r_decompress := None |}).
  - apply Forall_cons_2; [|apply Forall_nil_2]. intros s. split; reflexivity.
  - reflexivity.
  - left. reflexivity.
  - vm_compute. reflexivity.
  - reflexivity.
Defined.

Lemma brotli_is_prepended_witness :
  ∃ s', FileServer (H := Example.platform) Example.fsys
                   ([] ++ [brotli_AddEncoding (H := Example.platform)]) = Ok s' ∧
        FileExt <$> Encodings s' = [".br"; ".gz"].
Proof.
  destruct (brotli_is_prepended (H := Example.platform) Example.fsys []
              (Example.server_or Example.fsys (FileServer (H := Example.platform) Example.fsys [])))
    as (s' & E & Enc & _).
  - reflexivity.
  - exists s'. split; [exact E|]. rewrite Enc. reflexivity.
Defined.

Lemma default_hook_hides_error_witness :
  let w := rw Example.fresh in
  let w' := OnError Example.server w (Example.get "/a.txt" []) "file does not exist" in
  (status w = None → status w' = Some 500) ∧
  written w' = ([] ++ bytes_of ("Internal Server Error" +:+ nl))%list ∧
  header w' !! "Content-Type" = Some ["text/plain; charset=utf-8"] ∧
  ∀ req' err', OnError Example.server w req' err' = w'.
Proof.
  intros w.
  apply (default_hook_hides_error (H := Example.platform) Example.fsys
           [brotli_AddEncoding (H := Example.platform)] Example.server).
  - apply Forall_cons_2; [|apply Forall_nil_2]. intros s. reflexivity.
  - reflexivity.
Defined.

Lemma hashDir_frame_witness :
  (∀ key, key ∉ path_Clean <$> files_under "." Example.files →
          info Example.server !! key = (∅ : gmap string fileInfo) !! key) ∧
  (∀ fn, fn ∈ files_under "." Example.files →
         is_Some (info Example.server !! path_Clean fn)).
Proof.
  refine (proj2 (hashDir_frame Example.open_file "." Example.files ∅ (info Example.server) _)).
  vm_compute. reflexivity.
Defined.

Lemma OnError_is_installed_witness :
  let quiet := λ (w : ResponseWriter) (_ : Request) (_ : error), w in
  ∃ s', FileServer (H := Example.platform) Example.fsys
                   ([brotli_AddEncoding (H := Example.platform)] ++ [OnErrorOption quiet])
          = Ok s' ∧
        OnError s' = quiet ∧ info s' = info Example.server.
Proof.
  intros quiet.
  destruct (OnError_is_installed (H := Example.platform) Example.fsys
              [brotli_AddEncoding (H := Example.platform)] Example.server quiet)
    as (s' & E & Hh & _ & Hi & _).
  - reflexivity.
  - exists s'. auto.
Defined.

